(** * nltools.utils: the hemodynamic response functions and the list helpers

    A shallow embedding of [src/nltools/utils.py]: the family of HRF
    generators ([_gamma_difference_hrf], [spm_hrf], [glover_hrf] and the
    three finite-difference derivatives) and the helpers [all_same] and
    [concatenate].

    The HRF code is written once, over an interface [PyFloat] of the Python
    float operations and an interface [SciLib] of what lies outside the
    repository: [ndarray.sum], the standard gamma density, and the array
    sizes numpy refuses to build.  What is said of the program is proved
    over every such arithmetic or at binary64 floats, which is what
    CPython and numpy compute with.  The real numbers are a second
    instance, the arithmetic the algorithm approximates: it serves for the
    closed forms of the gamma density and for the facts that hold in
    exact arithmetic only.  A third reading keeps the arrays in a store,
    with the allocations and the in-place operations of the source.

    The estimator registries ([set_algorithm],
    [set_decomposition_algorithm] and their helper [load_class]) and
    [attempt_to_import] are modelled over the Python environment they call
    into: the import machinery, scikit-learn's classes and the exceptions
    these raise are parameters.

    The arguments are Python floats, as the docstrings say.  [np.linspace]
    and [gamma.pdf] are modelled after numpy 1.11 to 1.17, which accept
    the float count the source passes, and after scipy's
    [rv_continuous.pdf]; numpy's error state is the default one, under
    which a division by zero on an array warns and goes on. *)

From Stdlib Require Import List ZArith QArith Bool String Ascii Lia.
From Stdlib Require Import DecimalString.
From Stdlib Require Import Reals Qreals Lra ClassicalEpsilon.
From Stdlib Require Import Floats.
Import ListNotations.

Set Implicit Arguments.
Set Warnings "-register-all".

(** ** Exceptions *)

(** The Python exceptions the modelled code can raise.  A [ValueError]
    carries its message, which tells the two [raise] statements of
    [concatenate] apart. *)
Inductive exn : Type :=
| ZeroDivisionError
| OverflowError
| IndexError
| MemoryError
| ValueError (msg : string).

(** What numpy answers when it does not build an array that was asked
    for: the [ValueError] of its size checks, with numpy's message, or a
    [MemoryError]. *)
Inductive refusal : Type :=
| TooBig (msg : string)
| OutOfMemory.

Definition refused (r : refusal) : exn :=
  match r with
  | TooBig msg => ValueError msg
  | OutOfMemory => MemoryError
  end.

(** [str(n)] of a Python int: its decimal digits, after a minus sign when
    it is negative. *)
Definition py_str_int (n : Z) : string :=
  NilZero.string_of_int (Z.to_int n).

Inductive result (A : Type) : Type :=
| Ok (a : A)
| Raise (e : exn).

Arguments Ok {A} a.
Arguments Raise {A} e.

Definition bind {A B : Type} (m : result A) (k : A -> result B) : result B :=
  match m with
  | Ok a => k a
  | Raise e => Raise e
  end.

Notation "x <- m ;; k" := (bind m (fun x => k))
  (at level 61, m at next level, right associativity).

(** ** The numeric interface *)

(** The operations of a Python float.  [fadd], [fsub], [fmul] and [fdiv]
    are the IEEE operations as numpy applies them to arrays: total, a
    division by zero is not an error there.  [flit] reads a decimal
    literal of the source, [fnat] converts an index, [py_int] is the
    builtin [int], [fnan] is what scipy calls its [badvalue]. *)
Class PyFloat (F : Type) : Type := {
  fadd : F -> F -> F;
  fsub : F -> F -> F;
  fmul : F -> F -> F;
  fdiv : F -> F -> F;
  feqb : F -> F -> bool;
  fleb : F -> F -> bool;
  fltb : F -> F -> bool;
  flit : Q -> F;
  fnat : nat -> F;
  fnan : F;
  py_int : F -> result Z
}.

(** The library routines whose code lies outside the repository, and the
    machine they run on: [np_sum] is [ndarray.sum()], [gamma_std_pdf x a]
    is scipy's [gamma._pdf(x, a)], the density of the standard gamma
    distribution of shape [a] at a point [x] of its support.
    [np_refuses n] is what numpy raises when it is asked for an array of
    [n] float64 samples and does not build it: the [ValueError] of a size
    it rejects (8e18 samples, say) or a [MemoryError]; it is [None] when
    the array is built.  Which counts are refused, and with which
    message, depends on the platform and on numpy's version.  The arrays
    of one call all have the length of its grid, so the question is
    asked once, when the grid is built. *)
Class SciLib (F : Type) : Type := {
  np_sum : list F -> F;
  gamma_std_pdf : F -> F -> F;
  np_refuses : Z -> option refusal
}.

Section HRF.

Context {F : Type} {PF : PyFloat F} {SL : SciLib F}.

(** [x / y] on two Python scalars: a zero divisor raises. *)
Definition py_div (x y : F) : result F :=
  if feqb y (flit 0) then Raise ZeroDivisionError else Ok (fdiv x y).

(** *** numpy *)

(** [y[-1] = stop]. *)
Fixpoint set_last (y : list F) (stop : F) : list F :=
  match y with
  | [] => []
  | [_] => [stop]
  | v :: y' => v :: set_last y' stop
  end.

(** The sample count of [np.linspace] for a float [num], as numpy 1.11 to
    1.17 derive it: [int(num)], refused when negative
    ([raise ValueError("Number of samples, %s, must be non-negative." % num)])
    and when [arange(0, num)] cannot build an array of that many
    samples. *)
Definition sample_count (num : F) : result nat :=
  n <- py_int num ;;
  if (n <? 0)%Z
  then Raise (ValueError
                ("Number of samples, " ++ py_str_int n
                 ++ ", must be non-negative.")%string)
  else match np_refuses n with
       | Some r => Raise (refused r)
       | None => Ok (Z.to_nat n)
       end.

(** The points of [np.linspace(start, stop, num)] with its default
    [endpoint=True], for the count [num]: [arange(0, num) * step + start],
    the last one overwritten with [stop]. *)
Definition linspace_points (start stop : F) (num : nat) : list F :=
  let div := fnat (num - 1) in
  let y := map fnat (seq 0 num) in
  let delta := fsub stop start in
  let y :=
    if (1 <? num)%nat then
      let step := fdiv delta div in
      if feqb step (flit 0)
      then map (fun v => fmul (fdiv v div) delta) y
      else map (fun v => fmul v step) y
    else map (fun v => fmul v delta) y in
  let y := map (fun v => fadd v start) y in
  if (1 <? num)%nat then set_last y stop else y.

Definition np_linspace (start stop num : F) : result (list F) :=
  n <- sample_count num ;;
  Ok (linspace_points start stop n).

(** Elementwise [a - b] on two one-dimensional arrays, with numpy's
    broadcasting of a one-element operand. *)
Definition np_sub (a b : list F) : result (list F) :=
  if (List.length a =? List.length b)%nat
  then Ok (map (fun p => fsub (fst p) (snd p)) (combine a b))
  else match a, b with
       | [x], _ => Ok (map (fun v => fsub x v) b)
       | _, [x] => Ok (map (fun v => fsub v x) a)
       | _, _ => Raise (ValueError "operands could not be broadcast together")
       end.

(** [c * a] for a scalar [c] and an array [a]. *)
Definition np_scale (c : F) (a : list F) : list F := map (fun v => fmul c v) a.

(** The finite difference of two kernels as the specification writes it:
    [(hi - lo) / step], sample by sample. *)
Definition forward_difference (step : F) (hi lo : list F) : list F :=
  map (fun p => fdiv (fsub (fst p) (snd p)) step) (combine hi lo).

(** *** scipy *)

(** [scipy.stats.gamma.pdf(x, a, loc, scale)] at one point, after
    [rv_continuous.pdf]: the point is standardised to [(x - loc) / scale];
    an invalid shape or scale, or a NaN point, gives [badvalue]; a point
    outside the support [[0, inf]] gives zero; elsewhere it is
    [_pdf(y, a) / scale]. *)
Definition gamma_pdf (x a loc scale : F) : F :=
  let y := fdiv (fsub x loc) scale in
  let cond0 := fltb (flit 0) a && fltb (flit 0) scale in
  if negb cond0 || negb (feqb y y) then fnan
  else if fleb (flit 0) y then fdiv (gamma_std_pdf y a) scale
  else flit 0.

(** *** The gamma-difference HRF *)

(** The time grid of [_gamma_difference_hrf] (source lines 183-184), given
    [dt] of line 182. *)
Definition hrf_time_stamps (dt time_length onset : F) : result (list F) :=
  num <- py_div time_length dt ;;
  time_stamps <- np_linspace (flit 0) time_length num ;;
  shift <- py_div onset dt ;;
  Ok (map (fun t => fsub t shift) time_stamps).

(** The value of [hrf] before [hrf /= hrf.sum()] (source lines 182-187).
    The third positional argument of [gamma.pdf] is [loc]; [scale] keeps
    its default 1. *)
Definition gamma_difference_unnormalized
    (tr oversampling time_length onset delay undershoot dispersion
       u_dispersion ratio : F) : result (list F) :=
  dt <- py_div tr oversampling ;;
  time_stamps <- hrf_time_stamps dt time_length onset ;;
  a1 <- py_div delay dispersion ;;
  loc1 <- py_div dt dispersion ;;
  let response := map (fun t => gamma_pdf t a1 loc1 (flit 1)) time_stamps in
  a2 <- py_div undershoot u_dispersion ;;
  loc2 <- py_div dt u_dispersion ;;
  let under := map (fun t => gamma_pdf t a2 loc2 (flit 1)) time_stamps in
  np_sub response (np_scale ratio under).

(** One sample of the unnormalized kernel at the grid point [t], as the
    source computes it: both lobes are standard gamma densities moved to
    the location [dt / dispersion] (resp. [dt / u_dispersion]), of unit
    scale. *)
Definition lobes_by_location
    (dt delay undershoot dispersion u_dispersion ratio t : F) : F :=
  fsub (gamma_pdf t (fdiv delay dispersion) (fdiv dt dispersion) (flit 1))
       (fmul ratio
          (gamma_pdf t (fdiv undershoot u_dispersion)
             (fdiv dt u_dispersion) (flit 1))).

(** The same sample as the specification words it: lobes of scale
    [dt / dispersion] (resp. [dt / u_dispersion]), located at the
    origin. *)
Definition lobes_by_scale
    (dt delay undershoot dispersion u_dispersion ratio t : F) : F :=
  fsub (gamma_pdf t (fdiv delay dispersion) (flit 0) (fdiv dt dispersion))
       (fmul ratio
          (gamma_pdf t (fdiv undershoot u_dispersion)
             (flit 0) (fdiv dt u_dispersion))).

(** [hrf /= hrf.sum()]. *)
Definition normalize (hrf : list F) : list F :=
  map (fun v => fdiv v (np_sum hrf)) hrf.

Definition _gamma_difference_hrf
    (tr oversampling time_length onset delay undershoot dispersion
       u_dispersion ratio : F) : result (list F) :=
  hrf <- gamma_difference_unnormalized tr oversampling time_length onset
           delay undershoot dispersion u_dispersion ratio ;;
  Ok (normalize hrf).

(** [spm_hrf] passes four arguments; the other five take the defaults of
    the signature of [_gamma_difference_hrf]. *)
Definition spm_hrf (tr oversampling time_length onset : F) : result (list F) :=
  _gamma_difference_hrf tr oversampling time_length onset
    (flit 6) (flit 16) (flit 1) (flit 1) (flit 0.167).

Definition glover_hrf (tr oversampling time_length onset : F)
  : result (list F) :=
  _gamma_difference_hrf tr oversampling time_length onset
    (flit 6) (flit 12) (flit 0.9) (flit 0.9) (flit 0.35).

Definition spm_time_derivative (tr oversampling time_length onset : F)
  : result (list F) :=
  let do := flit 0.1 in
  inv_do <- py_div (flit 1) do ;;
  hi <- spm_hrf tr oversampling time_length (fadd onset do) ;;
  lo <- spm_hrf tr oversampling time_length onset ;;
  diff <- np_sub hi lo ;;
  Ok (np_scale inv_do diff).

Definition glover_time_derivative (tr oversampling time_length onset : F)
  : result (list F) :=
  let do := flit 0.1 in
  inv_do <- py_div (flit 1) do ;;
  hi <- glover_hrf tr oversampling time_length (fadd onset do) ;;
  lo <- glover_hrf tr oversampling time_length onset ;;
  diff <- np_sub hi lo ;;
  Ok (np_scale inv_do diff).

Definition spm_dispersion_derivative (tr oversampling time_length onset : F)
  : result (list F) :=
  let dd := flit 0.01 in
  inv_dd <- py_div (flit 1) dd ;;
  hi <- _gamma_difference_hrf tr oversampling time_length onset
          (flit 6) (flit 16) (fadd (flit 1) dd) (flit 1) (flit 0.167) ;;
  lo <- spm_hrf tr oversampling time_length onset ;;
  diff <- np_sub hi lo ;;
  Ok (np_scale inv_dd diff).

End HRF.

(** The length of every kernel of the family: the sample count of the grid,
    a function of [tr], [oversampling] and [time_length] alone. *)
Definition kernel_length {F : Type} {PF : PyFloat F} {SL : SciLib F}
    (tr oversampling time_length : F) : result nat :=
  dt <- py_div tr oversampling ;;
  num <- py_div time_length dt ;;
  sample_count num.

(** ** Binary64 floats *)

Module Binary64.

Definition of_Z (z : Z) : float :=
  match z with
  | Z0 => PrimFloat.zero
  | Zpos _ => PrimFloat.of_uint63 (Uint63.of_Z z)
  | Zneg p => PrimFloat.opp (PrimFloat.of_uint63 (Uint63.of_Z (Zpos p)))
  end.

(** A decimal literal [n / d] of the source: the division of two exactly
    represented integers rounds the quotient once, to the nearest double,
    as the Python parser does. *)
Definition of_Q (q : Q) : float :=
  PrimFloat.div (of_Z (Qnum q)) (of_Z (Zpos (Qden q))).

(** [int(x)]: the integer part, towards zero; NaN and the infinities
    raise. *)
Definition to_int (x : float) : result Z :=
  match Prim2SF x with
  | S754_zero _ => Ok 0%Z
  | S754_finite s m e =>
      let magnitude := Z.shiftl (Zpos m) e in
      Ok (if s then (- magnitude)%Z else magnitude)
  | S754_infinity _ => Raise OverflowError
  | S754_nan => Raise (ValueError "cannot convert float NaN to integer")
  end.

#[export] Instance float_PyFloat : PyFloat float := {
  fadd := PrimFloat.add;
  fsub := PrimFloat.sub;
  fmul := PrimFloat.mul;
  fdiv := PrimFloat.div;
  feqb := PrimFloat.eqb;
  fleb := PrimFloat.leb;
  fltb := PrimFloat.ltb;
  flit := of_Q;
  fnat := fun n => of_Z (Z.of_nat n);
  fnan := PrimFloat.nan;
  py_int := to_int
}.

(** The library routines are left open at this instance: the order in
    which numpy adds the samples, the rounding of scipy's density and the
    sizes numpy refuses are theirs to choose. *)
Definition float_SciLib (sum : list float -> float)
    (pdf : float -> float -> float) (refuses : Z -> option refusal)
  : SciLib float :=
  {| np_sum := sum; gamma_std_pdf := pdf; np_refuses := refuses |}.

(** Summation from left to right, one choice of [ndarray.sum]. *)
Definition sum_left (l : list float) : float :=
  fold_left PrimFloat.add l PrimFloat.zero.

End Binary64.

(** ** Real numbers *)

(** The arithmetic the algorithm approximates, not the one it computes
    with: nothing is rounded here, [int] is applied to exact quotients,
    and no array is refused.  The reals have no NaN and no infinity
    either: [fnan], a quotient by zero, and the density at the pole of a
    shape below one have no faithful value here, so the statements read
    at this instance keep to arguments where none of them occurs. *)

Module Exact.

Local Open Scope R_scope.

(** [int(x)]: the integer part, towards zero. *)
Definition trunc (x : R) : Z :=
  if Rle_dec 0 x then Int_part x else (- Int_part (- x))%Z.

(** Euler's sequence for the gamma function,
    [n! n^a / (a (a+1) ... (a+n))], and the function as its limit. *)
Definition Gamma_seq (a : R) (n : nat) : R :=
  INR (fact n) * Rpower (INR n) a
  / fold_right Rmult 1 (map (fun k => a + INR k) (seq 0 (S n))).

Definition Gamma (a : R) : R :=
  epsilon (inhabits 0) (fun l => Un_cv (Gamma_seq a) l).

(** The density of the standard gamma distribution of shape [a] at
    [x >= 0]: [x^(a-1) e^(-x) / Gamma(a)], with its limit values at the
    origin (0 for [a > 1], 1 for [a = 1]). *)
Definition gamma_density (x a : R) : R :=
  if Req_dec_T x 0 then
    if Rlt_dec 1 a then 0 else if Req_dec_T a 1 then 1 else 0
  else Rpower x (a - 1) * exp (- x) / Gamma a.

(** [n! n^(m+1) / (m+1+n)!], the factor of Euler's sequence at the integer
    [m + 1] that tends to 1. *)
Definition stirling_ratio (m n : nat) : R :=
  INR (fact n) * INR n ^ S m / INR (fact (S m + n)).

(** The SPM lobes at distance [x] into their support: shapes 6 and 16,
    ratio 0.167, with [5! = 120] and [15! = 1307674368000]. *)
Definition spm_lobes (x : R) : R :=
  x ^ 5 * exp (- x) / 120
  - 167 / 1000 * (x ^ 15 * exp (- x) / 1307674368000).

#[export] Instance R_PyFloat : PyFloat R := {
  fadd := Rplus;
  fsub := Rminus;
  fmul := Rmult;
  fdiv := Rdiv;
  feqb := fun x y => if Req_dec_T x y then true else false;
  fleb := fun x y => if Rle_dec x y then true else false;
  fltb := fun x y => if Rlt_dec x y then true else false;
  flit := Q2R;
  fnat := INR;
  fnan := 0;
  py_int := fun x => Ok (trunc x)
}.

#[export] Instance R_SciLib : SciLib R := {
  np_sum := fold_right Rplus 0;
  gamma_std_pdf := gamma_density;
  np_refuses := fun _ => None
}.

End Exact.

(** ** The list helpers *)

Module Helpers.

Section Objects.

(** The objects a caller puts in the lists: their classes, the truth value
    of [x == y], the call [c()] of a class without arguments and the
    method call [out.append(i)], which belong to the classes of the
    objects and may raise exceptions of theirs, a [ValueError] among
    them. *)
Variable obj : Type.
Variable cls : Type.
Variable object_exn : Type.
Variable type_of : obj -> cls.
Variable py_eq : obj -> obj -> bool.
Variable construct : cls -> obj + object_exn.
Variable append : obj -> obj -> obj + object_exn.

(** The values the two helpers build on the way: a boolean, a class
    object, a generator (suspended: it yields only when iterated) and a
    list of such values. *)
Inductive value : Type :=
| VBool (b : bool)
| VClass (c : cls)
| VGenerator (yields : unit -> list value)
| VList (items : list value).

(** Truth value testing: a class object and a generator define neither
    [__bool__] nor [__len__], so they are true; a list is true when it is
    not empty. *)
Definition truthy (v : value) : bool :=
  match v with
  | VBool b => b
  | VClass _ => true
  | VGenerator _ => true
  | VList items => negb (Nat.eqb (List.length items) 0)
  end.

(** The builtin [all] on a list. *)
Definition py_all (items : list value) : bool := forallb truthy items.

(** [np.all(a)]: a list becomes an array and is reduced with [and]; any
    other object becomes a zero-dimensional object array, whose reduction
    is the object itself.  A generator is not iterated. *)
Definition np_all (a : value) : value :=
  match a with
  | VList items => VBool (forallb truthy items)
  | _ => a
  end.

(** [(x == items[0] for x in items)]: [items[0]] is evaluated once per
    element, so never on an empty list. *)
Definition comparisons (items : list obj) : list value :=
  match items with
  | [] => []
  | first :: _ => map (fun x => VBool (py_eq x first)) items
  end.

Definition all_same (items : list obj) : value :=
  np_all (VGenerator (fun _ => comparisons items)).

(** The reduction over the comparisons themselves, which [all_same] does
    not compute: [np.all([x == items[0] for x in items])]. *)
Definition all_equal_to_first (items : list obj) : value :=
  np_all (VList (comparisons items)).

(** The argument of [concatenate]: a list, or an object that is none. *)
Inductive argument : Type :=
| NotAList (o : obj)
| AList (items : list obj).

(** How a call of [concatenate] ends: it returns, it raises at a
    statement of its own (one of its two [raise] statements, or the
    indexing [data[0]]), or it lets through what a method of the objects
    raised. *)
Inductive ending (A : Type) : Type :=
| Returns (a : A)
| Raises (e : exn)
| ObjectRaises (e : object_exn).

Arguments Returns {A} a.
Arguments Raises {A} e.
Arguments ObjectRaises {A} e.

Definition bind_ending {A B : Type} (m : ending A) (k : A -> ending B)
  : ending B :=
  match m with
  | Returns a => k a
  | Raises e => Raises e
  | ObjectRaises e => ObjectRaises e
  end.

Definition of_object {A : Type} (r : A + object_exn) : ending A :=
  match r with
  | inl a => Returns a
  | inr e => ObjectRaises e
  end.

Notation "x <~ m ;; k" := (bind_ending m (fun x => k))
  (at level 61, m at next level, right associativity).

(** [for i in data: out = out.append(i)]. *)
Fixpoint append_each (out : obj) (data : list obj) : ending obj :=
  match data with
  | [] => Returns out
  | i :: rest => out' <~ of_object (append out i) ;; append_each out' rest
  end.

Definition concatenate (data : argument) : ending obj :=
  match data with
  | NotAList _ =>
      Raises (ValueError "Make sure you are passing a list of objects.")
  | AList items =>
      if py_all (map (fun x => VClass (type_of x)) items) then
        match items with
        | [] => Raises IndexError
        | first :: _ =>
            out <~ of_object (construct (type_of first)) ;;
            append_each out items
        end
      else
        Raises (ValueError
                  "Make sure all objects in the list are the same type.")
  end.

End Objects.

Arguments Returns {object_exn A} a.
Arguments Raises {object_exn A} e.
Arguments ObjectRaises {object_exn A} e.

End Helpers.

(** ** The arrays in memory *)

(** The same functions with the numpy arrays where Python keeps them: in a
    store, reached by reference.  [np.linspace], [gamma.pdf], [c * a] and
    [a - b] allocate their result; [a -= c] and [a /= c] overwrite the
    array they are applied to. *)

Module Store.

Section Arrays.

Context {F : Type} {PF : PyFloat F} {SL : SciLib F}.

(** The arrays alive, by address. *)
Definition store : Type := list (list F).

(** A statement: it runs in a store, returns a value or raises, and
    leaves a store either way. *)
Definition prog (A : Type) : Type := store -> result A * store.

Definition ret {A : Type} (a : A) : prog A := fun s => (Ok a, s).

Definition bind_prog {A B : Type} (m : prog A) (k : A -> prog B) : prog B :=
  fun s =>
    match m s with
    | (Ok a, s') => k a s'
    | (Raise e, s') => (Raise e, s')
    end.

(** A computation on scalars: it leaves the store alone. *)
Definition lift {A : Type} (m : result A) : prog A := fun s => (m, s).

(** A new array, at the first free address. *)
Definition new_array (a : list F) : prog nat :=
  fun s => (Ok (List.length s), s ++ [a]).

Definition contents (r : nat) : prog (list F) :=
  fun s =>
    match nth_error s r with
    | Some a => (Ok a, s)
    | None => (Raise IndexError, s)
    end.

Fixpoint store_at (r : nat) (a : list F) (s : store) : store :=
  match s, r with
  | [], _ => []
  | _ :: s', O => a :: s'
  | b :: s', S r' => b :: store_at r' a s'
  end.

(** An in-place operation: the array at [r] is overwritten. *)
Definition update_in_place (r : nat) (f : list F -> list F) : prog unit :=
  fun s =>
    match nth_error s r with
    | Some a => (Ok tt, store_at r (f a) s)
    | None => (Raise IndexError, s)
    end.

Notation "x <~ m ;; k" := (bind_prog m (fun x => k))
  (at level 61, m at next level, right associativity).
Notation "m ;;; k" := (bind_prog m (fun _ => k))
  (at level 61, right associativity).

Definition _gamma_difference_hrf
    (tr oversampling time_length onset delay undershoot dispersion
       u_dispersion ratio : F) : prog nat :=
  dt <~ lift (py_div tr oversampling) ;;
  num <~ lift (py_div time_length dt) ;;
  n <~ lift (sample_count num) ;;
  time_stamps <~ new_array (linspace_points (flit 0) time_length n) ;;
  shift <~ lift (py_div onset dt) ;;
  update_in_place time_stamps (map (fun t => fsub t shift)) ;;;
  a1 <~ lift (py_div delay dispersion) ;;
  loc1 <~ lift (py_div dt dispersion) ;;
  ts <~ contents time_stamps ;;
  response <~ new_array (map (fun t => gamma_pdf t a1 loc1 (flit 1)) ts) ;;
  a2 <~ lift (py_div undershoot u_dispersion) ;;
  loc2 <~ lift (py_div dt u_dispersion) ;;
  ts <~ contents time_stamps ;;
  under <~ new_array (map (fun t => gamma_pdf t a2 loc2 (flit 1)) ts) ;;
  u <~ contents under ;;
  scaled <~ new_array (np_scale ratio u) ;;
  r <~ contents response ;;
  sc <~ contents scaled ;;
  d <~ lift (np_sub r sc) ;;
  hrf <~ new_array d ;;
  h <~ contents hrf ;;
  update_in_place hrf (map (fun v => fdiv v (np_sum h))) ;;;
  ret hrf.

Definition spm_hrf (tr oversampling time_length onset : F) : prog nat :=
  _gamma_difference_hrf tr oversampling time_length onset
    (flit 6) (flit 16) (flit 1) (flit 1) (flit 0.167).

Definition glover_hrf (tr oversampling time_length onset : F) : prog nat :=
  _gamma_difference_hrf tr oversampling time_length onset
    (flit 6) (flit 12) (flit 0.9) (flit 0.9) (flit 0.35).

(** [1. / step * (hi - lo)] on two arrays in the store. *)
Definition scaled_difference (inv_step : F) (hi lo : nat) : prog nat :=
  a <~ contents hi ;;
  b <~ contents lo ;;
  d <~ lift (np_sub a b) ;;
  diff <~ new_array d ;;
  d <~ contents diff ;;
  new_array (np_scale inv_step d).

Definition spm_time_derivative (tr oversampling time_length onset : F)
  : prog nat :=
  let do := flit 0.1 in
  inv_do <~ lift (py_div (flit 1) do) ;;
  hi <~ spm_hrf tr oversampling time_length (fadd onset do) ;;
  lo <~ spm_hrf tr oversampling time_length onset ;;
  scaled_difference inv_do hi lo.

Definition glover_time_derivative (tr oversampling time_length onset : F)
  : prog nat :=
  let do := flit 0.1 in
  inv_do <~ lift (py_div (flit 1) do) ;;
  hi <~ glover_hrf tr oversampling time_length (fadd onset do) ;;
  lo <~ glover_hrf tr oversampling time_length onset ;;
  scaled_difference inv_do hi lo.

Definition spm_dispersion_derivative (tr oversampling time_length onset : F)
  : prog nat :=
  let dd := flit 0.01 in
  inv_dd <~ lift (py_div (flit 1) dd) ;;
  hi <~ _gamma_difference_hrf tr oversampling time_length onset
          (flit 6) (flit 16) (fadd (flit 1) dd) (flit 1) (flit 0.167) ;;
  lo <~ spm_hrf tr oversampling time_length onset ;;
  scaled_difference inv_dd hi lo.

(** What a call leaves behind, seen from its caller: the contents of the
    array it returns, or the exception. *)
Definition outcome (p : prog nat) (s : store) : result (list F) :=
  match p s with
  | (Ok r, s') =>
      match nth_error s' r with
      | Some a => Ok a
      | None => Raise IndexError
      end
  | (Raise e, _) => Raise e
  end.

(** The arrays of [s] are still in [s'], each at its address and with its
    contents. *)
Definition preserved (s s' : store) : Prop := exists t, s' = s ++ t.

Definition preserves (p : prog nat) (s : store) : Prop :=
  preserved s (snd (p s)).

(** A run that raises what [f] raises, or returns the address of a new
    array holding what [f] returns; either way it only adds arrays, past
    everything the store held. *)
Definition runs_as (p : prog nat) (f : result (list F)) (s : store) : Prop :=
  exists t,
    match f with
    | Ok k => p s = (Ok (List.length (s ++ t)), (s ++ t) ++ [k])
    | Raise e => p s = (Raise e, s ++ t)
    end.

(** A call with no side effect and no hidden input: from every store its
    outcome is [f], and the arrays of the store are preserved, also when
    it raises. *)
Definition pure_call (p : prog nat) (f : result (list F)) : Prop :=
  forall s, outcome p s = f /\ preserves p s.

End Arrays.

End Store.

(** ** Strings and dictionaries *)

Module Text.

(** [s.split(sep)] for a separator of one character: the pieces between
    the separators, never an empty list. *)
Fixpoint split (sep : ascii) (s : string) : list string :=
  match s with
  | EmptyString => [EmptyString]
  | String c rest =>
      if Ascii.eqb c sep then EmptyString :: split sep rest
      else match split sep rest with
           | [] => [String c EmptyString]
           | piece :: pieces => String c piece :: pieces
           end
  end.

(** [sep.join(pieces)]. *)
Fixpoint join (sep : string) (pieces : list string) : string :=
  match pieces with
  | [] => EmptyString
  | [piece] => piece
  | piece :: rest => (piece ++ sep ++ join sep rest)%string
  end.

(** [c not in s]. *)
Fixpoint without (c : ascii) (s : string) : bool :=
  match s with
  | EmptyString => true
  | String c' rest => negb (Ascii.eqb c' c) && without c rest
  end.

End Text.

Module Dict.

Section Dict.

Variable V : Type.

(** A dict with string keys, in insertion order. *)
Definition dict : Type := list (string * V).

(** [d.get(k)]; [k in d] is [get k d <> None]. *)
Fixpoint get (k : string) (d : dict) : option V :=
  match d with
  | [] => None
  | (k', v) :: d' => if String.eqb k k' then Some v else get k d'
  end.

(** [d[k] = v]: the value of an existing key is replaced where it
    stands, a new key goes to the end. *)
Fixpoint set (k : string) (v : V) (d : dict) : dict :=
  match d with
  | [] => [(k, v)]
  | (k', v') :: d' =>
      if String.eqb k k' then (k, v) :: d' else (k', v') :: set k v d'
  end.

Definition keys (d : dict) : list string := map fst d.

End Dict.

End Dict.

(** ** The estimator registries *)

(** [set_algorithm] and [set_decomposition_algorithm] on algorithm names
    that are strings.  The modules, their classes and the calls of the
    classes are scikit-learn's: they are parameters here. *)

Module Estimators.

Section Sklearn.

Local Open Scope string_scope.

(** What lies outside the repository: the modules [importlib] finds, their
    attributes, the call of a class, and the exceptions any of these may
    raise. *)
Variable module_t : Type.
Variable class_t : Type.
Variable estimator : Type.
Variable pyval : Type.
Variable callee_exn : Type.

Variable import_module : string -> module_t + callee_exn.
Variable getattr : module_t -> string -> class_t + callee_exn.

(** The statement [from module import name]. *)
Variable import_from : string -> string -> class_t + callee_exn.

(** [*args, **kwargs]. *)
Record arguments : Type := {
  positional : list pyval;
  keywords : list (string * pyval)
}.

Variable call : class_t -> arguments -> estimator + callee_exn.

(** [Pipeline(steps=...)], imported at the top of the file. *)
Variable Pipeline : list (string * estimator) -> estimator + callee_exn.

(** A call of this file returns, raises the [ValueError] of one of its
    own [raise] statements, or lets through what a callee raised. *)
Inductive completion (A : Type) : Type :=
| Returned (a : A)
| ValueErrorRaised (msg : string)
| CalleeRaised (e : callee_exn).

Arguments Returned {A} a.
Arguments ValueErrorRaised {A} msg.
Arguments CalleeRaised {A} e.

Definition bind_completion {A B : Type}
    (m : completion A) (k : A -> completion B) : completion B :=
  match m with
  | Returned a => k a
  | ValueErrorRaised msg => ValueErrorRaised msg
  | CalleeRaised e => CalleeRaised e
  end.

Definition of_callee {A : Type} (r : A + callee_exn) : completion A :=
  match r with
  | inl a => Returned a
  | inr e => CalleeRaised e
  end.

Notation "x <~ m ;; k" := (bind_completion m (fun x => k))
  (at level 61, m at next level, right associativity).

(** The nested helper of both registry functions. *)
Definition load_class (import_string : string) : completion class_t :=
  let class_data := Text.split "." import_string in
  let module_path := Text.join "." (removelast class_data) in
  let class_str := last class_data EmptyString in
  module <~ of_callee (import_module module_path) ;;
  of_callee (getattr module class_str).

Definition algs_classify : Dict.dict string := [
  ("svm", "sklearn.svm.SVC");
  ("logistic", "sklearn.linear_model.LogisticRegression");
  ("ridgeClassifier", "sklearn.linear_model.RidgeClassifier");
  ("ridgeClassifierCV", "sklearn.linear_model.RidgeClassifierCV");
  ("randomforestClassifier", "sklearn.ensemble.RandomForestClassifier")
].

Definition algs_predict : Dict.dict string := [
  ("svr", "sklearn.svm.SVR");
  ("linear", "sklearn.linear_model.LinearRegression");
  ("lasso", "sklearn.linear_model.Lasso");
  ("lassoCV", "sklearn.linear_model.LassoCV");
  ("ridge", "sklearn.linear_model.Ridge");
  ("ridgeCV", "sklearn.linear_model.RidgeCV");
  ("randomforest", "sklearn.ensemble.RandomForest")
].

(** A value of [predictor_settings]: a name or an estimator. *)
Inductive setting : Type :=
| Name (s : string)
| Estimator (e : estimator).

Definition no_arguments : arguments :=
  {| positional := []; keywords := [] |}.

Definition invalid_algorithm : string :=
  "Invalid prediction/classification algorithm name.
            Valid options are 'svm','svr', 'linear', 'logistic', 'lasso',
            'lassopcr','lassoCV','ridge','ridgeCV','ridgeClassifier',
            'randomforest', or 'randomforestClassifier'.".

Definition set_algorithm (algorithm : string) (args : arguments)
  : completion (Dict.dict setting) :=
  let predictor_settings := Dict.set "algorithm" (Name algorithm) [] in
  match Dict.get algorithm algs_classify with
  | Some import_string =>
      let predictor_settings :=
        Dict.set "prediction_type" (Name "classification")
          predictor_settings in
      alg <~ load_class import_string ;;
      predictor <~ of_callee (call alg args) ;;
      Returned (Dict.set "predictor" (Estimator predictor) predictor_settings)
  | None =>
  match Dict.get algorithm algs_predict with
  | Some import_string =>
      let predictor_settings :=
        Dict.set "prediction_type" (Name "prediction") predictor_settings in
      alg <~ load_class import_string ;;
      predictor <~ of_callee (call alg args) ;;
      Returned (Dict.set "predictor" (Estimator predictor) predictor_settings)
  | None =>
  if String.eqb algorithm "lassopcr" then
    let predictor_settings :=
      Dict.set "prediction_type" (Name "prediction") predictor_settings in
    Lasso <~ of_callee (import_from "sklearn.linear_model" "Lasso") ;;
    PCA <~ of_callee (import_from "sklearn.decomposition" "PCA") ;;
    lasso <~ of_callee (call Lasso no_arguments) ;;
    let predictor_settings :=
      Dict.set "_lasso" (Estimator lasso) predictor_settings in
    pca <~ of_callee (call PCA no_arguments) ;;
    let predictor_settings :=
      Dict.set "_pca" (Estimator pca) predictor_settings in
    pipeline <~ of_callee (Pipeline [("pca", pca); ("lasso", lasso)]) ;;
    Returned (Dict.set "predictor" (Estimator pipeline) predictor_settings)
  else if String.eqb algorithm "pcr" then
    let predictor_settings :=
      Dict.set "prediction_type" (Name "prediction") predictor_settings in
    LinearRegression <~
      of_callee (import_from "sklearn.linear_model" "LinearRegression") ;;
    PCA <~ of_callee (import_from "sklearn.decomposition" "PCA") ;;
    regress <~ of_callee (call LinearRegression no_arguments) ;;
    let predictor_settings :=
      Dict.set "_regress" (Estimator regress) predictor_settings in
    pca <~ of_callee (call PCA no_arguments) ;;
    let predictor_settings :=
      Dict.set "_pca" (Estimator pca) predictor_settings in
    pipeline <~ of_callee (Pipeline [("pca", pca); ("regress", regress)]) ;;
    Returned (Dict.set "predictor" (Estimator pipeline) predictor_settings)
  else ValueErrorRaised invalid_algorithm
  end
  end.

Definition algs : Dict.dict string := [
  ("pca", "sklearn.decomposition.PCA");
  ("ica", "sklearn.decomposition.FastICA");
  ("nnmf", "sklearn.decomposition.NMF");
  ("fa", "sklearn.decomposition.FactorAnalysis")
].

Definition invalid_decomposition : string :=
  "Invalid prediction/classification algorithm name.
            Valid options are 'pca','ica', 'nnmf', 'fa'".

Definition set_decomposition_algorithm (algorithm : string)
    (n_components : pyval) (args : arguments) : completion estimator :=
  match Dict.get algorithm algs with
  | Some import_string =>
      alg <~ load_class import_string ;;
      of_callee
        (call alg {| positional := n_components :: positional args;
                     keywords := keywords args |})
  | None => ValueErrorRaised invalid_decomposition
  end.

(** A call that ends in one of this file's own [ValueError]s. *)
Definition own_error (A : Type) (m : completion A) : Prop :=
  exists msg, m = ValueErrorRaised msg.

(** The names [set_algorithm] accepts. *)
Definition accepted_algorithms : list string :=
  (Dict.keys algs_classify ++ Dict.keys algs_predict
   ++ ["lassopcr"; "pcr"])%list.

(** The names its error message and its docstring offer. *)
Definition documented_algorithms : list string :=
  ["svm"; "svr"; "linear"; "logistic"; "lasso"; "lassopcr"; "lassoCV";
   "ridge"; "ridgeCV"; "ridgeClassifier"; "randomforest";
   "randomforestClassifier"].

End Sklearn.

End Estimators.

(** ** Optional imports *)

Module Imports.

Section Imports.

Variable module_t : Type.
Variable fromlist_t : Type.
Variable callee_exn : Type.

(** What [__import__] does: it returns the module, raises [ImportError],
    or raises something else. *)
Inductive imported : Type :=
| Module_ (m : module_t)
| ImportError
| OtherException (e : callee_exn).

Variable import_ : string -> option fromlist_t -> imported.

(** [Dependency = namedtuple('Dependency', 'package value')]; [None] is
    the value of a module that could not be imported. *)
Record Dependency : Type := {
  package : string;
  value : option module_t
}.

(** The module-level dict [module_names]. *)
Definition registry : Type := Dict.dict Dependency.

(** [if name is None: name = dependency]. *)
Definition entry_name (dependency : string) (name : option string) : string :=
  match name with None => dependency | Some n => n end.

(** [attempt_to_import(dependency, name, fromlist)] run on the dict
    [module_names]: what it returns or raises, and the dict it leaves. *)
Definition attempt_to_import (dependency : string) (name : option string)
    (fromlist : option fromlist_t) (module_names : registry)
  : (option module_t + callee_exn) * registry :=
  let name := entry_name dependency name in
  match import_ dependency fromlist with
  | OtherException e => (inr e, module_names)
  | found =>
      let mod_ := match found with Module_ m => Some m | _ => None end in
      (inl mod_,
       Dict.set name {| package := dependency; value := mod_ |} module_names)
  end.

End Imports.

End Imports.

(** ** Stand-ins for the Python environment *)

(** For the examples.  Every module is found, every attribute exists and
    is named by the pair of the module and the attribute, and a call
    returns the class it was made on. *)
Module Toy.

Definition import_module (m : string) : string + Empty_set := inl m.

Definition getattr (m c : string) : string * string + Empty_set :=
  inl (m, c).

Definition import_from (m c : string) : string * string + Empty_set :=
  inl (m, c).

Definition call (c : string * string) (_ : Estimators.arguments nat)
  : string * string + Empty_set := inl c.

Definition Pipeline (_ : list (string * (string * string)))
  : string * string + Empty_set :=
  inl ("sklearn.pipeline", "Pipeline")%string.

(** Only [numpy] can be imported. *)
Definition import_ (dependency : string) (_ : option unit)
  : Imports.imported string Empty_set :=
  if String.eqb dependency "numpy" then Imports.Module_ _ dependency
  else Imports.ImportError _ _.

End Toy.

(** * Properties *)

(** ** Facts that hold at every instance *)

Section HRF_facts.

Context {F : Type} {PF : PyFloat F} {SL : SciLib F}.

Lemma bind_Ok_inv (A B : Type) (m : result A) (k : A -> result B) (b : B) :
  (x <- m ;; k x) = Ok b -> exists a, m = Ok a /\ k a = Ok b.
Proof.
  destruct m as [a | e]; simpl; intros H.
  - exists a; split; [reflexivity | exact H].
  - discriminate H.
Qed.

Lemma set_last_length (y : list F) (stop : F) :
  List.length (set_last y stop) = List.length y.
Proof.
  induction y as [| v y IH]; simpl; [reflexivity |].
  destruct y as [| w y]; [reflexivity |].
  simpl in *. now rewrite IH.
Qed.

Lemma linspace_points_length (start stop : F) (num : nat) :
  List.length (linspace_points start stop num) = num.
Proof.
  unfold linspace_points.
  destruct (1 <? num)%nat; [rewrite set_last_length |];
    repeat (destruct (feqb _ _)); rewrite !length_map, ?length_seq; auto using length_seq.
Qed.

Lemma set_last_nth (y : list F) (stop d : F) (i : nat) :
  (i < List.length y)%nat ->
  nth i (set_last y stop) d
  = if (S i =? List.length y)%nat then stop else nth i y d.
Proof.
  revert i. induction y as [| v y IH]; intros i Hi; [simpl in Hi; lia |].
  destruct y as [| w y].
  - simpl in Hi. assert (i = 0%nat) by lia. subst i. reflexivity.
  - destruct i as [| i].
    + reflexivity.
    + change (set_last (v :: w :: y) stop) with (v :: set_last (w :: y) stop).
      cbn [nth]. rewrite IH by (simpl in *; lia).
      change (List.length (v :: w :: y)) with (S (List.length (w :: y))).
      reflexivity.
Qed.

Lemma map_seq_nth (f : nat -> F) (n i : nat) (d : F) :
  (i < n)%nat -> nth i (map f (seq 0 n)) d = f i.
Proof.
  intros Hi. rewrite nth_indep with (d' := f 0%nat)
    by now rewrite length_map, length_seq.
  rewrite map_nth, seq_nth by assumption. reflexivity.
Qed.

(** The points of [np.linspace], one by one.  The last of two or more is
    [stop] itself; any other is [i * step + start] with
    [step = (stop - start) / (num - 1)], or, when that quotient is zero,
    [(i / (num - 1)) * (stop - start) + start]; the point of a
    one-point grid is [0 * (stop - start) + start]. *)
Lemma linspace_points_nth (start stop d : F) (num i : nat) :
  (i < num)%nat ->
  nth i (linspace_points start stop num) d
  = if (1 <? num)%nat && (S i =? num)%nat then stop
    else
      fadd
        (if (1 <? num)%nat
         then if feqb (fdiv (fsub stop start) (fnat (num - 1))) (flit 0)
              then fmul (fdiv (fnat i) (fnat (num - 1))) (fsub stop start)
              else fmul (fnat i) (fdiv (fsub stop start) (fnat (num - 1)))
         else fmul (fnat i) (fsub stop start))
        start.
Proof.
  intros Hi. unfold linspace_points.
  destruct (1 <? num)%nat; cbn [andb].
  - destruct (feqb (fdiv (fsub stop start) (fnat (num - 1))) (flit 0));
      rewrite set_last_nth by (now rewrite !length_map, length_seq);
      rewrite !length_map, length_seq;
      (destruct (S i =? num)%nat; [reflexivity |]);
      now rewrite !map_map, map_seq_nth.
  - now rewrite !map_map, map_seq_nth.
Qed.

Lemma np_sub_same_length (a b : list F) :
  List.length a = List.length b ->
  np_sub a b = Ok (map (fun p => fsub (fst p) (snd p)) (combine a b)).
Proof.
  intros H. unfold np_sub. now rewrite H, Nat.eqb_refl.
Qed.

Lemma combine_same_length (A B : Type) (a : list A) (b : list B) :
  List.length a = List.length b -> List.length (combine a b) = List.length a.
Proof.
  intros H. rewrite length_combine, <- H. apply Nat.min_id.
Qed.

(** The array operations of the unnormalized kernel, fused into one pass
    over the grid. *)
Lemma lobes_pointwise (ratio a1 loc1 a2 loc2 : F) (time_stamps : list F) :
  np_sub (map (fun t => gamma_pdf t a1 loc1 (flit 1)) time_stamps)
         (np_scale ratio (map (fun t => gamma_pdf t a2 loc2 (flit 1)) time_stamps))
  = Ok (map (fun t => fsub (gamma_pdf t a1 loc1 (flit 1))
                           (fmul ratio (gamma_pdf t a2 loc2 (flit 1))))
            time_stamps).
Proof.
  rewrite np_sub_same_length
    by (unfold np_scale; now rewrite !length_map).
  f_equal. unfold np_scale.
  induction time_stamps as [| t ts IH]; simpl; [reflexivity |].
  now rewrite IH.
Qed.

Lemma hrf_time_stamps_length (dt time_length onset : F) (ts : list F) :
  hrf_time_stamps dt time_length onset = Ok ts ->
  exists num, py_div time_length dt = Ok num /\
              sample_count num = Ok (List.length ts).
Proof.
  unfold hrf_time_stamps, np_linspace. intros H.
  apply bind_Ok_inv in H as (num & Hnum & H).
  apply bind_Ok_inv in H as (pts & Hpts & H).
  apply bind_Ok_inv in Hpts as (n & Hn & Hpts).
  apply bind_Ok_inv in H as (shift & _ & H).
  injection Hpts as <-. injection H as <-.
  exists num. split; [exact Hnum |].
  now rewrite length_map, linspace_points_length.
Qed.

Lemma unnormalized_length
    (tr oversampling time_length onset delay undershoot dispersion
       u_dispersion ratio : F) (raw : list F) :
  gamma_difference_unnormalized tr oversampling time_length onset delay
    undershoot dispersion u_dispersion ratio = Ok raw ->
  kernel_length tr oversampling time_length = Ok (List.length raw).
Proof.
  unfold gamma_difference_unnormalized, kernel_length. intros H.
  apply bind_Ok_inv in H as (dt & Hdt & H). rewrite Hdt. simpl.
  apply bind_Ok_inv in H as (ts & Hts & H).
  apply bind_Ok_inv in H as (a1 & _ & H).
  apply bind_Ok_inv in H as (loc1 & _ & H).
  apply bind_Ok_inv in H as (a2 & _ & H).
  apply bind_Ok_inv in H as (loc2 & _ & H).
  rewrite lobes_pointwise in H. injection H as <-.
  apply hrf_time_stamps_length in Hts as (num & -> & Hn). simpl.
  now rewrite length_map.
Qed.

Lemma normalize_length (hrf : list F) :
  List.length (normalize hrf) = List.length hrf.
Proof. unfold normalize. apply length_map. Qed.

Lemma kernel_length_spec
    (tr oversampling time_length onset delay undershoot dispersion
       u_dispersion ratio : F) (k : list F) :
  _gamma_difference_hrf tr oversampling time_length onset delay
    undershoot dispersion u_dispersion ratio = Ok k ->
  kernel_length tr oversampling time_length = Ok (List.length k).
Proof.
  unfold _gamma_difference_hrf. intros H.
  apply bind_Ok_inv in H as (raw & Hraw & H). injection H as <-.
  rewrite normalize_length. eapply unnormalized_length, Hraw.
Qed.

Lemma same_kernel_length (tr oversampling time_length : F) (n m : nat) :
  kernel_length tr oversampling time_length = Ok n ->
  kernel_length tr oversampling time_length = Ok m ->
  n = m.
Proof. intros Hn Hm. rewrite Hn in Hm. now injection Hm. Qed.

Lemma py_div_nonzero (x y : F) :
  feqb y (flit 0) = false -> py_div x y = Ok (fdiv x y).
Proof. intros H. unfold py_div. now rewrite H. Qed.

(** The unnormalized kernel from the values of its divisions and its
    grid. *)
Lemma unnormalized_of_parts
    (tr oversampling time_length onset delay undershoot dispersion
       u_dispersion ratio dt : F) (time_stamps : list F) :
  py_div tr oversampling = Ok dt ->
  hrf_time_stamps dt time_length onset = Ok time_stamps ->
  py_div delay dispersion = Ok (fdiv delay dispersion) ->
  py_div dt dispersion = Ok (fdiv dt dispersion) ->
  py_div undershoot u_dispersion = Ok (fdiv undershoot u_dispersion) ->
  py_div dt u_dispersion = Ok (fdiv dt u_dispersion) ->
  gamma_difference_unnormalized tr oversampling time_length onset delay
    undershoot dispersion u_dispersion ratio
  = Ok (map (lobes_by_location dt delay undershoot dispersion u_dispersion
               ratio) time_stamps).
Proof.
  intros Hdt Hts Ha1 Hl1 Ha2 Hl2. unfold gamma_difference_unnormalized.
  rewrite Hdt. cbn [bind]. rewrite Hts. cbn [bind].
  rewrite Ha1, Hl1. cbn [bind]. rewrite Ha2, Hl2. cbn [bind].
  apply lobes_pointwise.
Qed.

(** C2 (as the code has it): before the normalization, every sample of
    the kernel is, at its shifted grid point, a response-lobe gamma
    density of shape [delay / dispersion] minus [ratio] times an
    undershoot-lobe gamma density of shape [undershoot / u_dispersion].
    The quotients [dt / dispersion] and [dt / u_dispersion] are the third
    positional argument of [gamma.pdf], its location: the lobes are
    shifted by them and keep the unit scale. *)
Theorem unnormalized_kernel_pointwise
    (tr oversampling time_length onset delay undershoot dispersion
       u_dispersion ratio : F) (time_stamps : list F) :
  feqb oversampling (flit 0) = false ->
  feqb dispersion (flit 0) = false ->
  feqb u_dispersion (flit 0) = false ->
  hrf_time_stamps (fdiv tr oversampling) time_length onset = Ok time_stamps ->
  gamma_difference_unnormalized tr oversampling time_length onset delay
    undershoot dispersion u_dispersion ratio
  = Ok (map (lobes_by_location (fdiv tr oversampling) delay undershoot
               dispersion u_dispersion ratio) time_stamps).
Proof.
  intros Hos Hd Hu Hts.
  apply unnormalized_of_parts with (dt := fdiv tr oversampling);
    solve [now apply py_div_nonzero | exact Hts].
Qed.

(** C5: [spm_hrf] is [_gamma_difference_hrf] at delay 6, undershoot 16,
    dispersion 1, u_dispersion 1 and ratio 0.167; [glover_hrf] is
    [_gamma_difference_hrf] at delay 6, undershoot 12, dispersion 0.9,
    u_dispersion 0.9 and ratio 0.35. *)
Theorem named_variants_parameters (tr oversampling time_length onset : F) :
  spm_hrf tr oversampling time_length onset
  = _gamma_difference_hrf tr oversampling time_length onset
      (flit 6) (flit 16) (flit 1) (flit 1) (flit 0.167)
  /\
  glover_hrf tr oversampling time_length onset
  = _gamma_difference_hrf tr oversampling time_length onset
      (flit 6) (flit 12) (flit 0.9) (flit 0.9) (flit 0.35).
Proof. split; reflexivity. Qed.

Lemma np_scale_length (c : F) (a : list F) :
  List.length (np_scale c a) = List.length a.
Proof. unfold np_scale. apply length_map. Qed.



(** The last step of the three derivatives, at every instance: the
    difference of the two kernels, sample by sample, times the reciprocal
    of the step. *)
Lemma reciprocal_times_difference
    (step tr oversampling time_length : F) (hi lo : result (list F)) :
  feqb step (flit 0) = false ->
  (forall k, hi = Ok k ->
     kernel_length tr oversampling time_length = Ok (List.length k)) ->
  (forall k, lo = Ok k ->
     kernel_length tr oversampling time_length = Ok (List.length k)) ->
  (inv_step <- py_div (flit 1) step ;;
   a <- hi ;; b <- lo ;;
   diff <- np_sub a b ;; Ok (np_scale inv_step diff))
  = (a <- hi ;; b <- lo ;;
     Ok (map (fun p => fmul (fdiv (flit 1) step) (fsub (fst p) (snd p)))
           (combine a b))).
Proof.
  intros Hstep Hhi Hlo. rewrite py_div_nonzero by assumption. cbn [bind].
  destruct hi as [a | e]; cbn [bind]; [| reflexivity].
  destruct lo as [b | e]; cbn [bind]; [| reflexivity].
  rewrite np_sub_same_length
    by (eapply same_kernel_length; [now apply Hhi | now apply Hlo]).
  cbn [bind]. unfold np_scale. now rewrite map_map.
Qed.

(** The grid from its sample count. *)
Lemma hrf_time_stamps_of_count (dt time_length onset : F) (N : Z) :
  feqb dt (flit 0) = false ->
  py_int (fdiv time_length dt) = Ok N ->
  (0 <= N)%Z ->
  np_refuses N = None ->
  hrf_time_stamps dt time_length onset
  = Ok (map (fun t => fsub t (fdiv onset dt))
          (linspace_points (flit 0) time_length (Z.to_nat N))).
Proof.
  intros Hdt HN Hpos Hroom. unfold hrf_time_stamps, np_linspace, sample_count.
  rewrite !py_div_nonzero by exact Hdt. cbn [bind]. rewrite HN. cbn [bind].
  destruct (Z.ltb_spec N 0) as [Hneg | _]; [lia |].
  now rewrite Hroom.
Qed.

Lemma kernel_length_of_count (tr oversampling time_length : F) (N : Z) :
  feqb oversampling (flit 0) = false ->
  feqb (fdiv tr oversampling) (flit 0) = false ->
  py_int (fdiv time_length (fdiv tr oversampling)) = Ok N ->
  (0 <= N)%Z ->
  np_refuses N = None ->
  kernel_length tr oversampling time_length = Ok (Z.to_nat N).
Proof.
  intros Hos Hdt HN Hpos Hroom. unfold kernel_length, sample_count.
  rewrite py_div_nonzero by exact Hos. cbn [bind].
  rewrite py_div_nonzero by exact Hdt. cbn [bind]. rewrite HN. cbn [bind].
  destruct (Z.ltb_spec N 0) as [Hneg | _]; [lia |].
  now rewrite Hroom.
Qed.



(** C3: with [dt = tr / oversampling], the grid of
    [_gamma_difference_hrf] has [N = int(time_length / dt)] points: the
    quotient is the float one and [int] is applied to it by
    [np.linspace], nothing else rounds it.  The points are evenly spaced
    over [[0, time_length]]: the last of two or more is [time_length],
    any other is [i * step + 0] with
    [step = (time_length - 0) / (N - 1)] (numpy computes
    [(i / (N - 1)) * (time_length - 0) + 0] where that step is zero, and
    [0 * (time_length - 0) + 0] for a grid of one point).  Every point
    is then decreased by [onset / dt]. *)
Theorem time_grid_evenly_spaced
    (tr oversampling time_length onset : F) (grid : list F) :
  feqb oversampling (flit 0) = false ->
  hrf_time_stamps (fdiv tr oversampling) time_length onset = Ok grid ->
  let dt := fdiv tr oversampling in
  py_div tr oversampling = Ok dt
  /\ exists N : Z,
       py_int (fdiv time_length dt) = Ok N
       /\ (0 <= N)%Z
       /\ np_refuses N = None
       /\ List.length grid = Z.to_nat N
       /\ forall i, (i < Z.to_nat N)%nat ->
            let delta := fsub time_length (flit 0) in
            let div := fnat (Z.to_nat N - 1) in
            nth i grid fnan
            = fsub
                (if (1 <? Z.to_nat N)%nat && (S i =? Z.to_nat N)%nat
                 then time_length
                 else
                   fadd
                     (if (1 <? Z.to_nat N)%nat
                      then if feqb (fdiv delta div) (flit 0)
                           then fmul (fdiv (fnat i) div) delta
                           else fmul (fnat i) (fdiv delta div)
                      else fmul (fnat i) delta)
                     (flit 0))
                (fdiv onset dt).
Proof.
  intros Hos Hgrid dt. split; [now apply py_div_nonzero |].
  unfold hrf_time_stamps, np_linspace, sample_count in Hgrid. fold dt in Hgrid.
  apply bind_Ok_inv in Hgrid as (num & Hnum & Hgrid).
  apply bind_Ok_inv in Hgrid as (pts & Hpts & Hgrid).
  apply bind_Ok_inv in Hpts as (n & Hn & Hpts).
  apply bind_Ok_inv in Hn as (N & HN & Hn).
  apply bind_Ok_inv in Hgrid as (shift & Hshift & Hgrid).
  injection Hpts as <-. injection Hgrid as <-.
  unfold py_div in Hnum, Hshift.
  destruct (feqb dt (flit 0)); [discriminate Hnum |].
  injection Hnum as <-. injection Hshift as <-.
  destruct (Z.ltb_spec N 0) as [Hneg | Hpos]; [discriminate Hn |].
  destruct (np_refuses N) as [r |] eqn:Hroom; [discriminate Hn |].
  injection Hn as <-.
  exists N. split; [exact HN |]. split; [exact Hpos |].
  split; [exact Hroom |].
  split; [now rewrite length_map, linspace_points_length |].
  intros i Hi delta div.
  rewrite nth_indep with (d' := fsub fnan (fdiv onset dt))
    by now rewrite length_map, linspace_points_length.
  rewrite (map_nth (fun t => fsub t (fdiv onset dt))).
  now rewrite linspace_points_nth.
Qed.

End HRF_facts.

(** *** What makes a call fail *)

Section HRF_outcomes.

Context {F : Type} {PF : PyFloat F} {SL : SciLib F}.

Lemma py_div_zero (x y : F) :
  feqb y (flit 0) = true -> py_div x y = Raise ZeroDivisionError.
Proof. intros H. unfold py_div. now rewrite H. Qed.

(** What a call of [_gamma_difference_hrf] comes to, read off the grid:
    the grid's own exception when the grid cannot be built, a
    [ZeroDivisionError] when a dispersion is zero, a kernel of the grid's
    length otherwise. *)
Lemma hrf_outcome_by_grid
    (tr oversampling time_length onset delay undershoot dispersion
       u_dispersion ratio : F) :
  match kernel_length tr oversampling time_length with
  | Raise e =>
      _gamma_difference_hrf tr oversampling time_length onset delay
        undershoot dispersion u_dispersion ratio = Raise e
  | Ok n =>
      if feqb dispersion (flit 0) || feqb u_dispersion (flit 0)
      then _gamma_difference_hrf tr oversampling time_length onset delay
             undershoot dispersion u_dispersion ratio
           = Raise ZeroDivisionError
      else exists k,
             _gamma_difference_hrf tr oversampling time_length onset delay
               undershoot dispersion u_dispersion ratio = Ok k
             /\ List.length k = n
  end.
Proof.
  unfold kernel_length, _gamma_difference_hrf, gamma_difference_unnormalized,
    hrf_time_stamps, np_linspace.
  destruct (feqb oversampling (flit 0)) eqn:Eos.
  { rewrite !py_div_zero by exact Eos. reflexivity. }
  rewrite !py_div_nonzero by exact Eos. cbn [bind].
  set (dt := fdiv tr oversampling).
  destruct (feqb dt (flit 0)) eqn:Edt.
  { rewrite !py_div_zero by exact Edt. reflexivity. }
  rewrite !py_div_nonzero by exact Edt. cbn [bind].
  destruct (sample_count (fdiv time_length dt)) as [n | e]; cbn [bind];
    [| reflexivity].
  destruct (feqb dispersion (flit 0)) eqn:Ed; cbn [orb].
  { rewrite !py_div_zero by exact Ed. reflexivity. }
  rewrite !py_div_nonzero by exact Ed. cbn [bind].
  destruct (feqb u_dispersion (flit 0)) eqn:Eu.
  { rewrite !py_div_zero by exact Eu. reflexivity. }
  rewrite !py_div_nonzero by exact Eu. cbn [bind].
  rewrite lobes_pointwise. cbn [bind]. eexists. split; [reflexivity |].
  now rewrite normalize_length, !length_map, linspace_points_length.
Qed.

(** [_gamma_difference_hrf] returns exactly when its grid can be built and
    neither dispersion is zero; when it raises, the exception is the one
    the grid raised or a [ZeroDivisionError].  The onset, the delay, the
    undershoot and the ratio never make it raise. *)
Theorem gamma_difference_hrf_returns_iff
    (tr oversampling time_length onset delay undershoot dispersion
       u_dispersion ratio : F) :
  ((exists k,
      _gamma_difference_hrf tr oversampling time_length onset delay
        undershoot dispersion u_dispersion ratio = Ok k)
   <-> (exists n, kernel_length tr oversampling time_length = Ok n)
       /\ feqb dispersion (flit 0) = false
       /\ feqb u_dispersion (flit 0) = false)
  /\ (forall e,
        _gamma_difference_hrf tr oversampling time_length onset delay
          undershoot dispersion u_dispersion ratio = Raise e ->
        kernel_length tr oversampling time_length = Raise e
        \/ e = ZeroDivisionError).
Proof.
  pose proof (hrf_outcome_by_grid tr oversampling time_length onset delay
                undershoot dispersion u_dispersion ratio) as H.
  destruct (kernel_length tr oversampling time_length) as [n | e0].
  - destruct (feqb dispersion (flit 0)); cbn [orb] in H.
    + rewrite H. split.
      * split; [intros [k Hk]; discriminate Hk | intros (_ & Hd & _)];
          discriminate.
      * intros e He. right. now injection He.
    + destruct (feqb u_dispersion (flit 0)).
      * rewrite H. split.
        -- split; [intros [k Hk]; discriminate Hk | intros (_ & _ & Hu)];
             discriminate.
        -- intros e He. right. now injection He.
      * destruct H as (k & Hk & _). rewrite Hk. split.
        -- split; [intros _; repeat split; now exists n | now exists k].
        -- discriminate.
  - rewrite H. split.
    + split; [intros [k Hk]; discriminate Hk | intros ([n Hn] & _)];
        discriminate.
    + intros e He. left. now injection He as ->.
Qed.

(** [tr] and [oversampling] enter only through their quotient [dt]: two
    calls whose quotients are the same number give the same outcome, for
    the base function and so for the named kernels, and for the three
    derivatives. *)
Theorem kernel_depends_on_dt_only
    (tr oversampling tr' oversampling' time_length onset delay undershoot
       dispersion u_dispersion ratio : F) :
  feqb oversampling (flit 0) = false ->
  feqb oversampling' (flit 0) = false ->
  fdiv tr oversampling = fdiv tr' oversampling' ->
  _gamma_difference_hrf tr oversampling time_length onset delay undershoot
    dispersion u_dispersion ratio
  = _gamma_difference_hrf tr' oversampling' time_length onset delay
      undershoot dispersion u_dispersion ratio
  /\ spm_time_derivative tr oversampling time_length onset
     = spm_time_derivative tr' oversampling' time_length onset
  /\ glover_time_derivative tr oversampling time_length onset
     = glover_time_derivative tr' oversampling' time_length onset
  /\ spm_dispersion_derivative tr oversampling time_length onset
     = spm_dispersion_derivative tr' oversampling' time_length onset.
Proof.
  intros Hos Hos' Hdt.
  assert (H : forall onset delay undershoot dispersion u_dispersion ratio,
             _gamma_difference_hrf tr oversampling time_length onset delay
               undershoot dispersion u_dispersion ratio
             = _gamma_difference_hrf tr' oversampling' time_length onset
                 delay undershoot dispersion u_dispersion ratio).
  { intros. unfold _gamma_difference_hrf, gamma_difference_unnormalized.
    rewrite (@py_div_nonzero _ _ tr _ Hos), (@py_div_nonzero _ _ tr' _ Hos').
    now rewrite Hdt. }
  split; [apply H |].
  unfold spm_time_derivative, glover_time_derivative,
    spm_dispersion_derivative, spm_hrf, glover_hrf.
  now rewrite !H.
Qed.

End HRF_outcomes.

(** ** Facts of the exact arithmetic *)

Import Exact.

Section Exact_facts.

Local Open Scope R_scope.

Lemma R_feqb_false (x y : R) : x <> y -> feqb x y = false.
Proof. intros H. cbn. now destruct (Req_dec_T x y). Qed.

Lemma R_feqb_refl (x : R) : feqb x x = true.
Proof. cbn. now destruct (Req_dec_T x x). Qed.

Lemma R_fleb_true (x y : R) : x <= y -> fleb x y = true.
Proof. intros H. cbn. now destruct (Rle_dec x y). Qed.

Lemma R_fleb_false (x y : R) : y < x -> fleb x y = false.
Proof. intros H. cbn. destruct (Rle_dec x y); [lra | reflexivity]. Qed.

Lemma R_fltb_true (x y : R) : x < y -> fltb x y = true.
Proof. intros H. cbn. now destruct (Rlt_dec x y). Qed.

Lemma R_flit_Z (z : Z) : flit (inject_Z z) = IZR z.
Proof. cbn. unfold Q2R. cbn. lra. Qed.

Lemma R_py_div (x y : R) : y <> 0 -> py_div x y = Ok (x / y).
Proof.
  intros H. unfold py_div. rewrite R_feqb_false; [reflexivity |].
  change 0%Q with (inject_Z 0). now rewrite R_flit_Z.
Qed.

Lemma trunc_nonneg (x : R) (z : Z) :
  IZR z <= x < IZR z + 1 -> 0 <= x -> trunc x = z.
Proof.
  intros H H0. unfold trunc. destruct (Rle_dec 0 x); [| contradiction].
  symmetry. apply Int_part_spec. lra.
Qed.

Lemma trunc_nonneg_sign (x : R) : 0 <= x -> (0 <= trunc x)%Z.
Proof.
  intros H. unfold trunc. destruct (Rle_dec 0 x); [| contradiction].
  destruct (base_Int_part x) as [Hle Hgt].
  assert (Hlt : (-1 < Int_part x)%Z) by (apply lt_IZR; lra). lia.
Qed.

Lemma R_sample_count (x : R) :
  0 <= x -> sample_count x = Ok (Z.to_nat (trunc x)).
Proof.
  intros H. unfold sample_count. cbn.
  pose proof (trunc_nonneg_sign H) as Hz.
  destruct (Z.ltb_spec (trunc x) 0); [lia | reflexivity].
Qed.

Lemma R_hrf_time_stamps (dt time_length onset : R) :
  dt <> 0 -> 0 <= time_length / dt ->
  hrf_time_stamps dt time_length onset
  = Ok (map (fun t => t - onset / dt)
            (linspace_points 0 time_length
               (Z.to_nat (trunc (time_length / dt))))).
Proof.
  intros Hdt Hn. unfold hrf_time_stamps, np_linspace.
  rewrite !R_py_div by assumption. cbn [bind].
  rewrite R_sample_count by assumption. cbn [bind].
  change 0%Q with (inject_Z 0). rewrite R_flit_Z. reflexivity.
Qed.

(** The points of the grid before the shift: the [i]-th of [N >= 2]
    points is [i * stop / (N - 1)]; a single point is 0. *)
Lemma R_linspace_nth (stop : R) (N i : nat) :
  (i < N)%nat ->
  nth i (linspace_points 0 stop N) 0
  = if (1 <? N)%nat then INR i * (stop / INR (N - 1)) else 0.
Proof.
  intros Hi. unfold linspace_points.
  destruct (Nat.ltb_spec 1 N) as [HN | HN].
  - assert (Hdiv : INR (N - 1) <> 0) by (apply not_0_INR; lia).
    rewrite set_last_nth
      by (destruct (feqb _ _); now rewrite !length_map, length_seq).
    assert (Hlen : forall l : list R,
               List.length l = N ->
               (S i =? List.length l)%nat = (S i =? N)%nat)
      by (now intros l ->).
    rewrite Hlen by (destruct (feqb _ _); now rewrite !length_map, length_seq).
    destruct (Nat.eqb_spec (S i) N) as [Hlast | Hmid].
    + replace (N - 1)%nat with i by lia.
      replace (N - 1)%nat with i in Hdiv by lia. now field.
    + destruct (feqb _ _); rewrite !map_map, map_seq_nth by assumption;
        cbn [fnat fmul fdiv fadd fsub R_PyFloat]; now field.
  - assert (N = 1%nat) by lia. subst N.
    assert (i = 0%nat) by lia. subst i.
    cbn. ring.
Qed.

Lemma trunc_256 : trunc (32 / (2 / 16)) = 256%Z.
Proof. apply trunc_nonneg; lra. Qed.

(** *** Normalization *)

(** In exact arithmetic a kernel divided by its non-zero sum sums to
    one.  Doubles round every quotient and every partial sum, and make
    no such promise. *)

Lemma sum_scaled (s : R) (l : list R) :
  np_sum (map (fun v => v / s) l) = np_sum l / s.
Proof.
  cbn. induction l as [| v l IH]; cbn; [unfold Rdiv; ring |].
  rewrite IH. unfold Rdiv. ring.
Qed.

Lemma normalize_sums_to_one (hrf : list R) :
  np_sum hrf <> 0 -> np_sum (normalize hrf) = 1.
Proof.
  intros H. unfold normalize.
  change (fun v : R => fdiv v (np_sum hrf)) with (fun v : R => v / np_sum hrf).
  rewrite sum_scaled. now field.
Qed.

(** *** Finite differences *)

(** In exact arithmetic the product by [1. / step] is the quotient by
    [step]. *)
Lemma scaled_difference (step : R) (hi lo : list R) :
  step <> 0 -> List.length hi = List.length lo ->
  (diff <- np_sub hi lo ;; Ok (np_scale (fdiv (flit 1) step) diff))
  = Ok (forward_difference step hi lo).
Proof.
  intros Hstep Hlen.
  rewrite np_sub_same_length by assumption. cbn [bind].
  unfold np_scale, forward_difference. rewrite map_map. f_equal.
  apply map_ext. intros [a b]. cbn.
  unfold Q2R. cbn. now field.
Qed.

(** *** The gamma function at the integers *)

Ltac nz :=
  repeat split;
  first [apply INR_fact_neq_0 | apply not_0_INR; lia | assumption].

Lemma Un_cv_eventually (U V : nat -> R) (l : R) (N : nat) :
  (forall n, (N <= n)%nat -> U n = V n) -> Un_cv V l -> Un_cv U l.
Proof.
  intros Heq HV eps Heps. destruct (HV eps Heps) as [M HM].
  exists (Nat.max N M). intros n Hn.
  rewrite Heq by lia. apply HM. lia.
Qed.

(** [n / (n + j)] tends to 1. *)
Lemma ratio_cv (j : nat) : Un_cv (fun n => INR n / INR (n + S j)) 1.
Proof.
  intros eps Heps.
  assert (Hj : 0 < INR (S j)) by (apply lt_0_INR; lia).
  destruct (archimed_cor1 (eps / INR (S j))) as (N & HN & HNpos).
  { now apply Rdiv_lt_0_compat. }
  exists N. intros n Hn.
  assert (Hn0 : 0 < INR n) by (apply lt_0_INR; lia).
  assert (HNn : / INR n <= / INR N).
  { apply Rinv_le_contravar; [apply lt_0_INR; lia | apply le_INR; lia]. }
  unfold Rdist. rewrite plus_INR.
  replace (INR n / (INR n + INR (S j)) - 1)
    with (- (INR (S j) / (INR n + INR (S j)))) by (field; lra).
  rewrite Rabs_Ropp, Rabs_pos_eq
    by (apply Rlt_le, Rdiv_lt_0_compat; lra).
  apply Rle_lt_trans with (INR (S j) * / INR n).
  - unfold Rdiv. apply Rmult_le_compat_l; [lra |].
    apply Rinv_le_contravar; lra.
  - apply Rle_lt_trans with (INR (S j) * / INR N).
    + apply Rmult_le_compat_l; lra.
    + apply Rmult_lt_reg_r with (/ INR (S j)).
      * now apply Rinv_0_lt_compat.
      * replace (INR (S j) * / INR N * / INR (S j)) with (/ INR N)
          by (field; split; [lra | apply not_0_INR; lia]).
        exact HN.
Qed.

Lemma stirling_ratio_cv (m : nat) : Un_cv (stirling_ratio m) 1.
Proof.
  induction m as [| m IH].
  - apply Un_cv_eventually with (V := fun n => INR n / INR (n + 1)) (N := 0%nat);
      [| apply (ratio_cv 0)].
    intros n _. unfold stirling_ratio.
    change (1 + n)%nat with (S n). rewrite fact_simpl, mult_INR.
    replace (n + 1)%nat with (S n) by lia.
    field. nz.
  - replace 1 with (1 * 1) by ring.
    apply Un_cv_eventually
      with (V := fun n => stirling_ratio m n * (INR n / INR (n + S (S m)))) (N := 0%nat);
      [| apply CV_mult; [exact IH | apply ratio_cv]].
    intros n _. unfold stirling_ratio.
    change (S (S m) + n)%nat with (S (S m + n)). rewrite fact_simpl, mult_INR.
    replace (n + S (S m))%nat with (S (S m + n)) by lia.
    simpl pow. field. nz.
Qed.

Lemma product_snoc (l : list R) (x : R) :
  fold_right Rmult 1 (l ++ [x]) = fold_right Rmult 1 l * x.
Proof. induction l as [| v l IH]; cbn; [ring | rewrite IH; ring]. Qed.

Lemma rising_product (m n : nat) :
  fold_right Rmult 1 (map (fun k => INR (S m) + INR k) (seq 0 (S n)))
  * INR (fact m) = INR (fact (S m + n)).
Proof.
  induction n as [| n IH].
  - cbn [seq map fold_right]. replace (S m + 0)%nat with (S m) by lia.
    rewrite fact_simpl, mult_INR. cbn [INR]. ring.
  - rewrite seq_S, map_app. cbn [map]. rewrite product_snoc.
    replace (S m + S n)%nat with (S (S m + n)) by lia.
    rewrite fact_simpl, mult_INR, <- IH, <- plus_INR.
    replace (S m + (0 + S n))%nat with (S (S m + n)) by lia. ring.
Qed.

Lemma Gamma_seq_nat (m n : nat) :
  (1 <= n)%nat ->
  Gamma_seq (INR (S m)) n = INR (fact m) * stirling_ratio m n.
Proof.
  intros Hn. unfold Gamma_seq, stirling_ratio.
  rewrite Rpower_pow by (apply lt_0_INR; lia).
  pose proof (rising_product m n) as HP.
  assert (Hfm : INR (fact m) <> 0) by apply INR_fact_neq_0.
  assert (Hf : INR (fact (S m + n)) <> 0) by apply INR_fact_neq_0.
  set (P := fold_right Rmult 1 _) in *.
  assert (HP0 : P <> 0).
  { intros H0. rewrite H0, Rmult_0_l in HP. now apply Hf. }
  rewrite <- HP. field. now split.
Qed.

(** The gamma function at a positive integer is a factorial. *)
Lemma Gamma_nat (m : nat) : Gamma (INR (S m)) = INR (fact m).
Proof.
  assert (Hcv : Un_cv (Gamma_seq (INR (S m))) (INR (fact m))).
  { apply Un_cv_eventually
      with (V := fun n => INR (fact m) * stirling_ratio m n) (N := 1%nat).
    - intros n Hn. now apply Gamma_seq_nat.
    - replace (INR (fact m)) with (INR (fact m) * 1) at 1 by ring.
      apply CV_mult; [| apply stirling_ratio_cv].
      intros eps Heps. exists 0%nat. intros n _.
      unfold Rdist. rewrite Rminus_diag, Rabs_R0. exact Heps. }
  unfold Gamma.
  eapply UL_sequence; [| exact Hcv].
  apply epsilon_spec. now exists (INR (fact m)).
Qed.

(** *** The kernel at the reals *)

Lemma R_flit_0 : flit 0 = 0.
Proof. exact (R_flit_Z 0). Qed.

Lemma R_flit_1 : flit 1 = 1.
Proof. exact (R_flit_Z 1). Qed.

(** The scipy wrapper at the reals, for a valid shape and scale. *)
Lemma R_gamma_pdf_outside (x a loc scale : R) :
  0 < a -> 0 < scale -> x < loc -> gamma_pdf x a loc scale = 0.
Proof.
  intros Ha Hs Hx. unfold gamma_pdf.
  rewrite R_flit_0, !R_fltb_true, R_feqb_refl by assumption. cbn [negb orb andb].
  rewrite R_fleb_false; [reflexivity |].
  cbn. unfold Rdiv. pose proof (Rinv_0_lt_compat scale Hs). nra.
Qed.

Lemma R_gamma_pdf_inside (x a loc scale : R) :
  0 < a -> 0 < scale -> loc <= x ->
  gamma_pdf x a loc scale = gamma_density ((x - loc) / scale) a / scale.
Proof.
  intros Ha Hs Hx. unfold gamma_pdf.
  rewrite R_flit_0, !R_fltb_true, R_feqb_refl by assumption. cbn [negb orb andb].
  rewrite R_fleb_true; [reflexivity |].
  cbn. unfold Rdiv. pose proof (Rinv_0_lt_compat scale Hs). nra.
Qed.

Lemma gamma_density_origin (a : R) : 1 < a -> gamma_density 0 a = 0.
Proof.
  intros Ha. unfold gamma_density.
  destruct (Req_dec_T 0 0) as [_ | H]; [| now contradiction H].
  now destruct (Rlt_dec 1 a).
Qed.

Lemma gamma_density_exponential : gamma_density 0 1 = 1.
Proof.
  unfold gamma_density.
  destruct (Req_dec_T 0 0) as [_ | H]; [| now contradiction H].
  destruct (Rlt_dec 1 1); [lra |].
  now destruct (Req_dec_T 1 1).
Qed.

(** At a shape that is a positive integer the density is
    [x^m e^(-x) / m!]. *)
Lemma gamma_density_nat (m : nat) (x : R) :
  0 < x ->
  gamma_density x (INR (S m)) = x ^ m * exp (- x) / INR (fact m).
Proof.
  intros Hx. unfold gamma_density.
  destruct (Req_dec_T x 0) as [H | _]; [lra |].
  rewrite Gamma_nat.
  replace (INR (S m) - 1) with (INR m) by (rewrite S_INR; ring).
  now rewrite Rpower_pow.
Qed.

Lemma R_unnormalized
    (tr oversampling time_length onset delay undershoot dispersion
       u_dispersion ratio : R) :
  oversampling <> 0 -> tr <> 0 ->
  0 <= time_length / (tr / oversampling) ->
  dispersion <> 0 -> u_dispersion <> 0 ->
  gamma_difference_unnormalized tr oversampling time_length onset delay
    undershoot dispersion u_dispersion ratio
  = Ok (map (lobes_by_location (tr / oversampling) delay undershoot
               dispersion u_dispersion ratio)
          (map (fun t => t - onset / (tr / oversampling))
             (linspace_points 0 time_length
                (Z.to_nat (trunc (time_length / (tr / oversampling))))))).
Proof.
  intros Hos Htr Hn Hd Hu.
  assert (Hdt : tr / oversampling <> 0).
  { unfold Rdiv. apply Rmult_integral_contrapositive_currified;
      [assumption | now apply Rinv_neq_0_compat]. }
  apply unnormalized_of_parts with (dt := tr / oversampling);
    solve [now apply R_py_div | now apply R_hrf_time_stamps].
Qed.

Lemma R_flit_nonzero (q : Q) : ~ (q == 0)%Q -> flit q <> 0.
Proof.
  intros Hq H. apply Hq. apply eqR_Qeq. cbn in H. rewrite H.
  symmetry. exact RMicromega.Q2R_0.
Qed.

Ltac flit_nonzero := apply R_flit_nonzero; intros H; discriminate H.

(** *** The SPM lobes in closed form *)

Lemma INR_fact_S (n : nat) : INR (fact (S n)) = INR (S n) * INR (fact n).
Proof. now rewrite fact_simpl, mult_INR. Qed.

Lemma fact_5 : INR (fact 5) = 120.
Proof.
  rewrite !INR_fact_S. change (fact 0) with 1%nat.
  rewrite !S_INR. cbn [INR]. ring.
Qed.

Lemma fact_15 : INR (fact 15) = 1307674368000.
Proof.
  rewrite !INR_fact_S. change (fact 0) with 1%nat.
  rewrite !S_INR. cbn [INR]. ring.
Qed.

Lemma gamma_density_6 (x : R) :
  0 < x -> gamma_density x 6 = x ^ 5 * exp (- x) / 120.
Proof.
  intros Hx. replace 6 with (INR 6) by (rewrite !S_INR; cbn [INR]; ring).
  now rewrite gamma_density_nat, fact_5.
Qed.

Lemma gamma_density_16 (x : R) :
  0 < x -> gamma_density x 16 = x ^ 15 * exp (- x) / 1307674368000.
Proof.
  intros Hx. replace 16 with (INR 16) by (rewrite !S_INR; cbn [INR]; ring).
  now rewrite gamma_density_nat, fact_15.
Qed.

Lemma R_flit_6 : flit 6 = 6.
Proof. exact (R_flit_Z 6). Qed.

Lemma R_flit_16 : flit 16 = 16.
Proof. exact (R_flit_Z 16). Qed.

Lemma R_flit_ratio : flit 0.167 = 167 / 1000.
Proof. cbn. unfold Q2R. cbn. lra. Qed.

Lemma spm_by_location_inside (dt t : R) :
  dt < t ->
  lobes_by_location dt (flit 6) (flit 16) (flit 1) (flit 1) (flit 0.167) t
  = spm_lobes (t - dt).
Proof.
  intros Ht. unfold lobes_by_location, spm_lobes.
  rewrite R_flit_6, R_flit_16, R_flit_1, R_flit_ratio.
  cbn [fdiv fsub fmul R_PyFloat].
  rewrite !R_gamma_pdf_inside by lra.
  replace (6 / 1) with 6 by lra. replace (16 / 1) with 16 by lra.
  replace ((t - dt / 1) / 1) with (t - dt) by lra.
  rewrite gamma_density_6, gamma_density_16 by lra. lra.
Qed.

Lemma spm_by_scale_inside (dt t : R) :
  0 < dt -> 0 < t ->
  lobes_by_scale dt (flit 6) (flit 16) (flit 1) (flit 1) (flit 0.167) t
  = spm_lobes (t / dt) / dt.
Proof.
  intros Hdt Ht. unfold lobes_by_scale, spm_lobes.
  rewrite R_flit_6, R_flit_16, R_flit_1, R_flit_ratio, R_flit_0.
  cbn [fdiv fsub fmul R_PyFloat].
  rewrite !R_gamma_pdf_inside by lra.
  replace (6 / 1) with 6 by lra. replace (16 / 1) with 16 by lra.
  replace ((t - 0) / (dt / 1)) with (t / dt) by (field; lra).
  assert (Hy : 0 < t / dt) by now apply Rdiv_lt_0_compat.
  rewrite gamma_density_6, gamma_density_16 by assumption. field. lra.
Qed.

Lemma exp_neg_le_1 (x : R) : 0 <= x -> exp (- x) <= 1.
Proof.
  intros Hx. rewrite <- exp_0. destruct Hx as [Hx | <-].
  - apply Rlt_le, exp_increasing. lra.
  - rewrite Ropp_0. apply Rle_refl.
Qed.

Lemma exp_neg_ge_ninth (y : R) : y <= 2 -> / 9 <= exp (- y).
Proof.
  intros Hy. apply Rle_trans with (exp (- (2))).
  - rewrite exp_Ropp. apply Rinv_le_contravar; [apply exp_pos |].
    replace 2 with (1 + 1) by ring. rewrite exp_plus.
    pose proof exp_le_3. pose proof (exp_pos 1). nra.
  - destruct Hy as [Hy | ->]; [| apply Rle_refl].
    apply Rlt_le, exp_increasing. lra.
Qed.

(** At the second point of the default grid the two readings are far
    apart: about [2.4e-19] by location, above [7e-3] by scale. *)
Lemma spm_lobes_gap : spm_lobes (/ 2040) < spm_lobes (256 / 255) / (2 / 16).
Proof.
  unfold spm_lobes.
  pose proof (exp_neg_le_1 (x := / 2040)) as H1.
  pose proof (exp_pos (- / 2040)) as H1'.
  pose proof (exp_neg_ge_ninth (y := 256 / 255)) as H2.
  assert (Hx : 0 <= / 2040) by lra. assert (Hy : 256 / 255 <= 2) by lra.
  specialize (H1 Hx). specialize (H2 Hy).
  generalize dependent (exp (- / 2040)).
  generalize dependent (exp (- (256 / 255))).
  intros E2 HE2 E1 HE1 HE1'. simpl pow. lra.
Qed.

(** C2 fails as stated: on the default grid of [spm_hrf] at [tr = 2] the
    unnormalized kernel is not the pointwise difference of two gamma
    densities of scale [dt / dispersion] and [dt / u_dispersion]; the two
    already differ at the second grid point. *)
Lemma unnormalized_kernel_is_not_by_scale :
  exists raw time_stamps,
    gamma_difference_unnormalized 2 16 32 0
      (flit 6) (flit 16) (flit 1) (flit 1) (flit 0.167) = Ok raw /\
    hrf_time_stamps (2 / 16) 32 0 = Ok time_stamps /\
    nth 1 raw 0
    <> lobes_by_scale (2 / 16) (flit 6) (flit 16) (flit 1) (flit 1)
         (flit 0.167) (nth 1 time_stamps 0).
Proof.
  eexists. eexists.
  split; [rewrite R_unnormalized; [reflexivity | try lra; try flit_nonzero ..] |].
  split; [rewrite R_hrf_time_stamps by lra; reflexivity |].
  rewrite trunc_256. change (Z.to_nat 256) with 256%nat.
  set (L := lobes_by_location _ _ _ _ _ _).
  set (shift := fun t : R => t - 0 / (2 / 16)).
  assert (Ht : nth 1 (map shift (linspace_points 0 32 256)) 0 = 32 / 255).
  { rewrite nth_indep with (d' := shift 0)
      by (rewrite length_map, linspace_points_length; lia).
    rewrite map_nth, R_linspace_nth by lia.
    change (1 <? 256)%nat with true. cbv iota.
    change (256 - 1)%nat with 255%nat.
    replace (INR 255) with 255 by (rewrite INR_IZR_INZ; reflexivity).
    unfold shift. change (INR 1) with 1. lra. }
  rewrite nth_indep with (d' := L 0)
    by (rewrite !length_map, linspace_points_length; lia).
  rewrite map_nth, Ht. unfold L.
  rewrite spm_by_location_inside, spm_by_scale_inside by lra.
  replace (32 / 255 - 2 / 16) with (/ 2040) by lra.
  replace (32 / 255 / (2 / 16)) with (256 / 255) by lra.
  pose proof spm_lobes_gap. lra.
Qed.

Lemma unnormalized_kernel_pointwise_witness :
  gamma_difference_unnormalized 2 16 32 0
    (flit 6) (flit 16) (flit 1) (flit 1) (flit 0.167)
  = Ok (map (lobes_by_location (2 / 16) (flit 6) (flit 16) (flit 1) (flit 1)
               (flit 0.167))
          (map (fun t => t - 0 / (2 / 16)) (linspace_points 0 32 256))).
Proof.
  assert (H16 : feqb 16 (flit 0) = false)
    by (apply R_feqb_false; rewrite R_flit_0; lra).
  assert (H1 : feqb (flit 1) (flit 0) = false)
    by (apply R_feqb_false; rewrite R_flit_0, R_flit_1; lra).
  assert (Hts : hrf_time_stamps (fdiv 2 16) 32 0
                = Ok (map (fun t => t - 0 / (2 / 16))
                        (linspace_points 0 32 256))).
  { change (fdiv 2 16) with (2 / 16). rewrite R_hrf_time_stamps by lra.
    now rewrite trunc_256. }
  exact (unnormalized_kernel_pointwise 2 16 32 0 (flit 6) (flit 16)
           (flit 1) (flit 1) (flit 0.167) H16 H1 H1 Hts).
Defined.

(** [spm_hrf(2, 16)] and [spm_hrf(1, 8)] share [dt = 0.125]. *)
Lemma kernel_depends_on_dt_only_witness :
  spm_hrf 2 16 32 0 = spm_hrf 1 8 32 0
  /\ spm_time_derivative 2 16 32 0 = spm_time_derivative 1 8 32 0.
Proof.
  destruct (@kernel_depends_on_dt_only R _ _ 2 16 1 8 32 0
              (flit 6) (flit 16) (flit 1) (flit 1) (flit 0.167))
    as (Hk & Hd & _); [| | | now split].
  - apply R_feqb_false. rewrite R_flit_0. lra.
  - apply R_feqb_false. rewrite R_flit_0. lra.
  - cbn. lra.
Defined.

End Exact_facts.

(** ** The list helpers *)

Import Helpers.

Section Helpers_facts.

Variable obj : Type.
Variable cls : Type.
Variable object_exn : Type.
Variable type_of : obj -> cls.
Variable py_eq : obj -> obj -> bool.
Variable construct : cls -> obj + object_exn.
Variable append : obj -> obj -> obj + object_exn.

(** C9: on a non-empty list [all_same] returns a true value whatever the
    elements are: [np.all] receives the generator expression, one object
    that is true, hands it back, and never sees the comparisons
    [x == items[0]].  The reduction over the comparisons themselves would
    be true exactly when every element equals the first. *)
Theorem all_same_always_truthy (items : list obj) :
  items <> [] ->
  all_same cls py_eq items = VGenerator (fun _ => comparisons cls py_eq items)
  /\ truthy (all_same cls py_eq items) = true
  /\ truthy (all_equal_to_first cls py_eq items)
     = match items with
       | first :: _ => forallb (fun x => py_eq x first) items
       | [] => true
       end.
Proof.
  intros Hne. split; [reflexivity |]. split; [reflexivity |].
  destruct items as [| first rest]; [now contradiction Hne |].
  unfold all_equal_to_first, comparisons, np_all.
  cbn [truthy]. generalize (first :: rest). intros l.
  induction l as [| x l IH]; [reflexivity |].
  cbn. now rewrite IH.
Qed.

(** The test in [concatenate] holds of every list: a class object is
    true, and [all] of an empty list is true. *)
Lemma types_are_all_truthy (items : list obj) :
  py_all (map (fun x => VClass (type_of x)) items) = true.
Proof.
  unfold py_all. induction items as [| x items IH]; [reflexivity |].
  cbn. exact IH.
Qed.

(** The loop raises nothing of its own: it returns, or an [append]
    raised. *)
Lemma append_each_raises_nothing (e : exn) (data : list obj) (out : obj) :
  append_each append out data <> Raises e.
Proof.
  revert out. induction data as [| i rest IH]; intros out; cbn.
  - discriminate.
  - destruct (append out i) as [out' | e']; cbn; [apply IH | discriminate].
Qed.

Lemma concatenate_nonempty (first : obj) (rest : list obj) :
  concatenate type_of construct append (AList (first :: rest))
  = bind_ending (of_object (construct (type_of first)))
      (fun out => append_each append out (first :: rest)).
Proof. unfold concatenate. now rewrite types_are_all_truthy. Qed.

(** C10 (as the code has it): [concatenate] raises a [ValueError] of its
    own exactly when [data] is not a list, and then the one of its first
    [raise].  The test [all([type(x) for x in data])] holds of every
    list, so the second [raise] is never reached: an empty list fails
    with [IndexError] at [data[0]], and a non-empty one goes on to
    [data[0].__class__()] and the [append] calls with no comparison of
    the element types.  What these calls raise, a [ValueError] included,
    is raised by [concatenate] in their name. *)
Theorem concatenate_value_error_iff_not_a_list :
  (forall data msg,
     concatenate type_of construct append data = Raises (ValueError msg)
     <-> (exists o, data = NotAList o) /\
         msg = "Make sure you are passing a list of objects."%string)
  /\ (forall items, py_all (map (fun x => VClass (type_of x)) items) = true)
  /\ concatenate type_of construct append (AList []) = Raises IndexError
  /\ (forall first rest,
        concatenate type_of construct append (AList (first :: rest))
        = bind_ending (of_object (construct (type_of first)))
            (fun out => append_each append out (first :: rest))).
Proof.
  split; [| split; [exact types_are_all_truthy
                   | split; [reflexivity | exact concatenate_nonempty]]].
  intros data msg. split.
  - destruct data as [o | [| first rest]].
    + cbn. intros H. injection H as <-. split; [now exists o | reflexivity].
    + cbn. discriminate.
    + rewrite concatenate_nonempty. intros H. exfalso.
      destruct (construct (type_of first)) as [out | e];
        cbn [of_object bind_ending] in H.
      * now apply append_each_raises_nothing in H.
      * discriminate H.
  - intros [[o ->] ->]. reflexivity.
Qed.

Lemma append_each_app (out : obj) (l1 l2 : list obj) :
  append_each append out (l1 ++ l2)
  = bind_ending (append_each append out l1)
      (fun out' => append_each append out' l2).
Proof.
  revert out. induction l1 as [| i l1 IH]; intros out; cbn; [reflexivity |].
  destruct (append out i) as [out' | e]; cbn; [apply IH | reflexivity].
Qed.

(** [concatenate] works from the left and stops at the first exception:
    on a list that goes on after a non-empty one it gives what it gives
    on the shorter list with the further elements appended, and it ends
    as it ends on the shorter list when that is with an exception.  The
    class called comes from the first element alone, and the first
    element is appended as every other one. *)
Theorem concatenate_extends (first : obj) (l1 l2 : list obj) :
  concatenate type_of construct append (AList ((first :: l1) ++ l2))
  = bind_ending
      (concatenate type_of construct append (AList (first :: l1)))
      (fun out => append_each append out l2)
  /\ (forall e,
        concatenate type_of construct append (AList (first :: l1))
        = Raises e ->
        concatenate type_of construct append (AList ((first :: l1) ++ l2))
        = Raises e)
  /\ (forall e,
        concatenate type_of construct append (AList (first :: l1))
        = ObjectRaises e ->
        concatenate type_of construct append (AList ((first :: l1) ++ l2))
        = ObjectRaises e)
  /\ concatenate type_of construct append (AList [first])
     = bind_ending (of_object (construct (type_of first)))
         (fun out => of_object (append out first)).
Proof.
  assert (Hext :
            concatenate type_of construct append (AList ((first :: l1) ++ l2))
            = bind_ending
                (concatenate type_of construct append (AList (first :: l1)))
                (fun out => append_each append out l2)).
  { change ((first :: l1) ++ l2) with (first :: (l1 ++ l2)).
    rewrite !concatenate_nonempty.
    destruct (construct (type_of first)) as [out | e]; cbn [of_object bind_ending];
      [| reflexivity].
    change (first :: l1 ++ l2) with ((first :: l1) ++ l2).
    apply append_each_app. }
  split; [exact Hext |]. split; [| split].
  - intros e He. now rewrite Hext, He.
  - intros e He. now rewrite Hext, He.
  - rewrite concatenate_nonempty.
    destruct (construct (type_of first)) as [out | e]; cbn; [| reflexivity].
    now destruct (append out first).
Qed.

End Helpers_facts.

(** Lists of numbers compared by [Nat.eqb]: [[1; 2]] holds two different
    elements, the comparisons say so, and [all_same] is true of it. *)
Lemma all_same_always_truthy_witness :
  truthy (all_same unit Nat.eqb [1; 2]%nat) = true /\
  truthy (all_equal_to_first unit Nat.eqb [1; 2]%nat) = false.
Proof.
  split; [| reflexivity].
  apply (all_same_always_truthy unit Nat.eqb (items := [1; 2]%nat)).
  discriminate.
Defined.

(** C10 fails as stated: a list can make [concatenate] raise a
    [ValueError].  Here the objects' [append] raises one, and
    [concatenate] of a one-element list raises it. *)
Lemma a_list_can_raise_value_error :
  concatenate (fun _ : unit => tt) (fun _ : unit => inl tt)
    (fun _ _ : unit => inr (ValueError "appended objects differ"))
    (AList [tt])
  = ObjectRaises (ValueError "appended objects differ").
Proof. reflexivity. Qed.

(** ** Facts of binary64 arithmetic *)

Import Binary64.

Section Binary64_facts.

Variable sum : list float -> float.
Variable pdf : float -> float -> float.
Variable refuses : Z -> option refusal.

#[local] Instance any_SciLib : SciLib float :=
  float_SciLib sum pdf refuses.

(** *** IEEE quotients *)

Lemma eqb_zero_inv (s : float) :
  PrimFloat.eqb s PrimFloat.zero = true ->
  exists b, Prim2SF s = S754_zero b.
Proof.
  rewrite eqb_spec. change (Prim2SF PrimFloat.zero) with (S754_zero false).
  destruct (Prim2SF s) as [b | b | | b m e]; cbn.
  - intros _. now exists b.
  - destruct b; discriminate.
  - discriminate.
  - destruct b; discriminate.
Qed.

(** IEEE division by a zero: the quotient is an infinity or a NaN. *)
Lemma div_by_zero_not_finite (x s : float) :
  PrimFloat.eqb s PrimFloat.zero = true ->
  PrimFloat.is_finite (PrimFloat.div x s) = false.
Proof.
  intros Hs. apply eqb_zero_inv in Hs as [b Hs].
  unfold PrimFloat.is_finite, PrimFloat.is_nan, PrimFloat.is_infinity.
  rewrite !eqb_spec, abs_spec, div_spec, Hs.
  change (Prim2SF infinity) with (S754_infinity false).
  destruct (Prim2SF x) as [bx | bx | | bx m e]; cbn;
    try reflexivity; destruct bx, b; reflexivity.
Qed.

(** A zero divided by a zero is a NaN. *)
Lemma zero_by_zero_is_nan (x s : float) :
  PrimFloat.eqb x PrimFloat.zero = true ->
  PrimFloat.eqb s PrimFloat.zero = true ->
  PrimFloat.is_nan (PrimFloat.div x s) = true.
Proof.
  intros Hx Hs.
  apply eqb_zero_inv in Hx as [bx Hx]. apply eqb_zero_inv in Hs as [b Hs].
  unfold PrimFloat.is_nan. now rewrite eqb_spec, div_spec, Hx, Hs.
Qed.


(** *** The division by the sum *)

(** C7: when the unnormalized kernel sums to a zero (of either sign),
    [_gamma_difference_hrf] does not raise and does not test the sum:
    numpy performs the division [hrf /= hrf.sum()], and the kernel
    returned has one sample for each sample of the unnormalized kernel,
    its quotient by the zero sum, which is an infinity or a NaN (a NaN
    where the sample is itself a zero).  This holds whatever the order in
    which [ndarray.sum] adds and whatever the density routine returns. *)
Theorem zero_sum_gives_non_finite_samples
    (tr oversampling time_length onset delay undershoot dispersion
       u_dispersion ratio : float) (raw : list float) :
  gamma_difference_unnormalized tr oversampling time_length onset delay
    undershoot dispersion u_dispersion ratio = Ok raw ->
  PrimFloat.eqb (sum raw) 0 = true ->
  exists k,
    _gamma_difference_hrf tr oversampling time_length onset delay undershoot
      dispersion u_dispersion ratio = Ok k
    /\ k = map (fun v => PrimFloat.div v (sum raw)) raw
    /\ List.length k = List.length raw
    /\ Forall (fun v => PrimFloat.is_finite v = false) k
    /\ forall i, (i < List.length raw)%nat ->
         PrimFloat.eqb (nth i raw PrimFloat.nan) 0 = true ->
         PrimFloat.is_nan (nth i k PrimFloat.nan) = true.
Proof.
  intros Hraw Hsum. unfold _gamma_difference_hrf. rewrite Hraw. cbn [bind].
  eexists. split; [reflexivity |].
  unfold normalize. cbn [np_sum any_SciLib float_SciLib fdiv float_PyFloat].
  split; [reflexivity |]. split; [apply length_map |]. split.
  - apply Forall_forall. intros v Hv.
    apply in_map_iff in Hv as (x & <- & _).
    now apply div_by_zero_not_finite.
  - intros i Hi Hzero.
    rewrite nth_indep
      with (d' := PrimFloat.div PrimFloat.nan (sum raw))
      by now rewrite length_map.
    rewrite (map_nth (fun v => PrimFloat.div v (sum raw))).
    now apply zero_by_zero_is_nan.
Qed.

(** *** Calls that can be computed *)

Lemma binary64_kernel_length (tr oversampling time_length : float) (N : Z) :
  PrimFloat.eqb oversampling 0 = false ->
  PrimFloat.eqb (PrimFloat.div tr oversampling) 0 = false ->
  to_int (PrimFloat.div time_length (PrimFloat.div tr oversampling)) = Ok N ->
  (0 <= N)%Z ->
  refuses N = None ->
  kernel_length tr oversampling time_length = Ok (Z.to_nat N).
Proof.
  exact (@kernel_length_of_count float _ _ tr oversampling time_length N).
Qed.






(** The default grid of [spm_hrf(2.0)] in binary64: 256 points from 0 to
    32, the second one the double nearest to [32 / 255]. *)
Lemma binary64_default_grid :
  refuses 256%Z = None ->
  exists grid,
    hrf_time_stamps (PrimFloat.div 2 16) 32%float 0%float = Ok grid
    /\ List.length grid = 256%nat
    /\ nth 0 grid PrimFloat.nan = 0%float
    /\ nth 1 grid PrimFloat.nan = PrimFloat.div 32 255
    /\ nth 255 grid PrimFloat.nan = 32%float.
Proof.
  intros Hroom. eexists. split.
  - apply (@hrf_time_stamps_of_count float _ _) with (N := 256%Z);
      [vm_compute; reflexivity | vm_compute; reflexivity | lia | exact Hroom].
  - repeat split; vm_compute; reflexivity.
Qed.

(** The count comes from the rounded quotient.  At the doubles
    [tr = 1 + 2^-52] and [time_length = 3 + 2^-51] the quotient of the
    two numbers is below 3, the double quotient is 3.0, and the grid has
    three points. *)
Lemma binary64_count_from_the_rounded_quotient :
  refuses 3%Z = None ->
  PrimFloat.div 0x1.8000000000001p+1
    (PrimFloat.div 0x1.0000000000001p+0 1) = 3%float
  /\ kernel_length 0x1.0000000000001p+0%float 1%float
       0x1.8000000000001p+1%float = Ok 3%nat.
Proof.
  intros Hroom. split; [vm_compute; reflexivity |].
  apply binary64_kernel_length with (N := 3%Z);
    [vm_compute; reflexivity | vm_compute; reflexivity
    | vm_compute; reflexivity | lia | exact Hroom].
Qed.

(** *** The derivatives *)

(** The length of a kernel does not depend on the onset or on the shape
    parameters. *)
Lemma binary64_same_length
    (tr oversampling time_length : float)
    (onset1 delay1 undershoot1 dispersion1 u_dispersion1 ratio1
     onset2 delay2 undershoot2 dispersion2 u_dispersion2 ratio2 : float)
    (k1 k2 : list float) :
  _gamma_difference_hrf tr oversampling time_length onset1 delay1
    undershoot1 dispersion1 u_dispersion1 ratio1 = Ok k1 ->
  _gamma_difference_hrf tr oversampling time_length onset2 delay2
    undershoot2 dispersion2 u_dispersion2 ratio2 = Ok k2 ->
  List.length k1 = List.length k2.
Proof.
  intros H1 H2.
  eapply same_kernel_length; eapply kernel_length_spec; eassumption.
Qed.

(** C4 (as the code has it): each derivative is, sample by sample, the
    difference of two kernels of one length multiplied by the reciprocal
    of the step, [1. / 0.1] or [1. / 0.01], which in binary64 are 10.0
    and 100.0: [spm_time_derivative] is
    [10.0 * (spm_hrf(onset + 0.1) - spm_hrf(onset))],
    [glover_time_derivative] the same on [glover_hrf], and
    [spm_dispersion_derivative] is
    [100.0 * (_gamma_difference_hrf(dispersion = 1. + 0.01) - spm_hrf)].
    The call with the changed argument is made first; a call that raises
    makes the derivative raise the same exception. *)
Theorem derivatives_are_scaled_differences
    (tr oversampling time_length onset : float) :
  py_div (flit 1) (flit 0.1) = Ok 10%float
  /\ py_div (flit 1) (flit 0.01) = Ok 100%float
  /\ spm_time_derivative tr oversampling time_length onset
     = (hi <- spm_hrf tr oversampling time_length
                (PrimFloat.add onset (flit 0.1)) ;;
        lo <- spm_hrf tr oversampling time_length onset ;;
        Ok (map (fun p => PrimFloat.mul 10 (PrimFloat.sub (fst p) (snd p)))
              (combine hi lo)))
  /\ glover_time_derivative tr oversampling time_length onset
     = (hi <- glover_hrf tr oversampling time_length
                (PrimFloat.add onset (flit 0.1)) ;;
        lo <- glover_hrf tr oversampling time_length onset ;;
        Ok (map (fun p => PrimFloat.mul 10 (PrimFloat.sub (fst p) (snd p)))
              (combine hi lo)))
  /\ spm_dispersion_derivative tr oversampling time_length onset
     = (hi <- _gamma_difference_hrf tr oversampling time_length onset
                (flit 6) (flit 16) (PrimFloat.add (flit 1) (flit 0.01))
                (flit 1) (flit 0.167) ;;
        lo <- spm_hrf tr oversampling time_length onset ;;
        Ok (map (fun p => PrimFloat.mul 100 (PrimFloat.sub (fst p) (snd p)))
              (combine hi lo)))
  /\ (forall onset1 delay1 undershoot1 dispersion1 u_dispersion1 ratio1
             onset2 delay2 undershoot2 dispersion2 u_dispersion2 ratio2
             hi lo,
        _gamma_difference_hrf tr oversampling time_length onset1 delay1
          undershoot1 dispersion1 u_dispersion1 ratio1 = Ok hi ->
        _gamma_difference_hrf tr oversampling time_length onset2 delay2
          undershoot2 dispersion2 u_dispersion2 ratio2 = Ok lo ->
        List.length hi = List.length lo
        /\ List.length (combine hi lo) = List.length lo).
Proof.
  split; [vm_compute; reflexivity |]. split; [vm_compute; reflexivity |].
  unfold spm_time_derivative, glover_time_derivative,
    spm_dispersion_derivative, spm_hrf, glover_hrf. cbv zeta.
  repeat match goal with |- _ /\ _ => split end;
    try (rewrite reciprocal_times_difference
           with (tr := tr) (oversampling := oversampling)
                (time_length := time_length);
         [ reflexivity
         | vm_compute; reflexivity
         | intros k Hk; eapply kernel_length_spec, Hk
         | intros k Hk; eapply kernel_length_spec, Hk ]).
  intros onset1 delay1 undershoot1 dispersion1 u_dispersion1 ratio1
    onset2 delay2 undershoot2 dispersion2 u_dispersion2 ratio2 hi lo Hhi Hlo.
  assert (Hlen : List.length hi = List.length lo)
    by (eapply binary64_same_length; eassumption).
  split; [exact Hlen |].
  now rewrite combine_same_length.
Qed.

(** *** What makes a call fail *)

Lemma binary64_hrf_by_grid
    (tr oversampling time_length onset delay undershoot dispersion
       u_dispersion ratio : float) :
  PrimFloat.eqb dispersion 0 = false ->
  PrimFloat.eqb u_dispersion 0 = false ->
  match kernel_length tr oversampling time_length with
  | Raise e =>
      _gamma_difference_hrf tr oversampling time_length onset delay
        undershoot dispersion u_dispersion ratio = Raise e
  | Ok n =>
      exists k,
        _gamma_difference_hrf tr oversampling time_length onset delay
          undershoot dispersion u_dispersion ratio = Ok k
        /\ List.length k = n
  end.
Proof.
  intros Hd Hu.
  pose proof (hrf_outcome_by_grid tr oversampling time_length onset delay
                undershoot dispersion u_dispersion ratio) as H.
  destruct (kernel_length tr oversampling time_length); [| exact H].
  change (feqb dispersion (flit 0)) with (PrimFloat.eqb dispersion 0) in H.
  change (feqb u_dispersion (flit 0))
    with (PrimFloat.eqb u_dispersion 0) in H.
  now rewrite Hd, Hu in H.
Qed.

Lemma binary64_derivative_by_grid
    (step tr oversampling time_length : float)
    (hi lo : result (list float)) :
  PrimFloat.eqb step 0 = false ->
  (match kernel_length tr oversampling time_length with
   | Raise e => hi = Raise e
   | Ok n => exists k, hi = Ok k /\ List.length k = n
   end) ->
  (match kernel_length tr oversampling time_length with
   | Raise e => lo = Raise e
   | Ok n => exists k, lo = Ok k /\ List.length k = n
   end) ->
  match kernel_length tr oversampling time_length with
  | Raise e =>
      (inv_step <- py_div (flit 1) step ;; a <- hi ;; b <- lo ;;
       diff <- np_sub a b ;; Ok (np_scale inv_step diff)) = Raise e
  | Ok n =>
      exists k,
        (inv_step <- py_div (flit 1) step ;; a <- hi ;; b <- lo ;;
         diff <- np_sub a b ;; Ok (np_scale inv_step diff)) = Ok k
        /\ List.length k = n
  end.
Proof.
  intros Hstep Hhi Hlo. rewrite py_div_nonzero by exact Hstep. cbn [bind].
  destruct (kernel_length tr oversampling time_length) as [n | e].
  - destruct Hhi as (a & -> & Ha). destruct Hlo as (b & -> & Hb).
    cbn [bind]. rewrite np_sub_same_length by congruence. cbn [bind].
    eexists. split; [reflexivity |].
    now rewrite np_scale_length, length_map, combine_same_length
      by congruence.
  - now rewrite Hhi.
Qed.

(** In binary64 each of the five named functions fails exactly when the
    grid cannot be built, with the grid's exception, whatever the onset;
    otherwise it returns a kernel with as many samples as the grid has
    points. *)
Theorem binary64_named_functions_fail_with_the_grid
    (tr oversampling time_length onset : float) :
  Forall
    (fun f : float -> float -> float -> float -> result (list float) =>
       match kernel_length tr oversampling time_length with
       | Raise e => f tr oversampling time_length onset = Raise e
       | Ok n =>
           exists k,
             f tr oversampling time_length onset = Ok k
             /\ List.length k = n
       end)
    [spm_hrf; glover_hrf; spm_time_derivative; glover_time_derivative;
     spm_dispersion_derivative].
Proof.
  repeat apply Forall_cons; [| | | | | apply Forall_nil].
  - apply binary64_hrf_by_grid; vm_compute; reflexivity.
  - apply binary64_hrf_by_grid; vm_compute; reflexivity.
  - apply binary64_derivative_by_grid; [vm_compute; reflexivity | |];
      apply binary64_hrf_by_grid; vm_compute; reflexivity.
  - apply binary64_derivative_by_grid; [vm_compute; reflexivity | |];
      apply binary64_hrf_by_grid; vm_compute; reflexivity.
  - apply binary64_derivative_by_grid; [vm_compute; reflexivity | |];
      apply binary64_hrf_by_grid; vm_compute; reflexivity.
Qed.

Lemma binary64_sample_count_raises (num : float) (e : exn) :
  sample_count num = Raise e ->
  e = OverflowError
  \/ e = ValueError "cannot convert float NaN to integer"
  \/ (exists n, to_int num = Ok n /\ (n < 0)%Z
                /\ e = ValueError
                         ("Number of samples, " ++ py_str_int n
                          ++ ", must be non-negative.")%string)
  \/ (exists n r, to_int num = Ok n /\ (0 <= n)%Z
                  /\ refuses n = Some r /\ e = refused r).
Proof.
  unfold sample_count. cbn [py_int float_PyFloat np_refuses any_SciLib float_SciLib].
  destruct (to_int num) as [n | e0] eqn:Hn; cbn [bind].
  - destruct (Z.ltb_spec n 0) as [Hneg | Hpos].
    + intros H. injection H as <-. right. right. left. now exists n.
    + destruct (refuses n) as [r |] eqn:Hr; [| discriminate].
      intros H. injection H as <-. right. right. right. now exists n, r.
  - unfold to_int in Hn.
    destruct (Prim2SF num) as [s | s | | s m ex]; try discriminate Hn;
      injection Hn as <-; intros H; injection H as <-; auto.
Qed.

(** In binary64 the grid, and with it every function of the family,
    raises [ZeroDivisionError] exactly when [oversampling] is zero or the
    quotient [tr / oversampling] is zero, as it is for [tr = 0].  Any
    other failure of the grid comes from the sample count
    [int(time_length / dt)]: the [OverflowError] or the [ValueError] of
    [int] on an infinite or NaN quotient, the [ValueError] of
    [np.linspace] for a negative count, which names the count, or what
    numpy raises for a count it does not build an array for, a
    [ValueError] or a [MemoryError]. *)
Theorem binary64_grid_errors (tr oversampling time_length : float) :
  (kernel_length tr oversampling time_length = Raise ZeroDivisionError
   <-> PrimFloat.eqb oversampling 0 = true
       \/ PrimFloat.eqb (PrimFloat.div tr oversampling) 0 = true)
  /\ (forall e,
        kernel_length tr oversampling time_length = Raise e ->
        e = ZeroDivisionError \/ e = OverflowError
        \/ e = ValueError "cannot convert float NaN to integer"
        \/ (exists n,
              to_int (PrimFloat.div time_length
                        (PrimFloat.div tr oversampling)) = Ok n
              /\ (n < 0)%Z
              /\ e = ValueError
                       ("Number of samples, " ++ py_str_int n
                        ++ ", must be non-negative.")%string)
        \/ (exists n r,
              to_int (PrimFloat.div time_length
                        (PrimFloat.div tr oversampling)) = Ok n
              /\ (0 <= n)%Z
              /\ refuses n = Some r /\ e = refused r)).
Proof.
  split.
  - unfold kernel_length.
    destruct (PrimFloat.eqb oversampling 0) eqn:Eos.
    { rewrite py_div_zero by exact Eos. cbn [bind]. tauto. }
    rewrite py_div_nonzero by exact Eos. cbn [bind].
    change (fdiv tr oversampling) with (PrimFloat.div tr oversampling).
    destruct (PrimFloat.eqb (PrimFloat.div tr oversampling) 0) eqn:Edt.
    { rewrite py_div_zero by exact Edt. cbn [bind]. tauto. }
    rewrite py_div_nonzero by exact Edt. cbn [bind].
    split; [| intros [H | H]; discriminate H].
    intros H. apply binary64_sample_count_raises in H.
    destruct H as [H | [H | [(n & _ & _ & H) | (n & r & _ & _ & _ & H)]]];
      try discriminate H.
    now destruct r.
  - intros e. unfold kernel_length.
    destruct (PrimFloat.eqb oversampling 0) eqn:Eos.
    { rewrite py_div_zero by exact Eos. cbn [bind].
      intros H. injection H as <-. now left. }
    rewrite py_div_nonzero by exact Eos. cbn [bind].
    change (fdiv tr oversampling) with (PrimFloat.div tr oversampling).
    destruct (PrimFloat.eqb (PrimFloat.div tr oversampling) 0) eqn:Edt.
    { rewrite py_div_zero by exact Edt. cbn [bind].
      intros H. injection H as <-. now left. }
    rewrite py_div_nonzero by exact Edt. cbn [bind].
    intros H. right. now apply binary64_sample_count_raises in H.
Qed.

(** A negative count, as numpy reports it. *)
Lemma binary64_negative_count :
  kernel_length 2%float 16%float (-32)%float
  = Raise (ValueError "Number of samples, -256, must be non-negative.").
Proof. vm_compute. reflexivity. Qed.

(** *** Lengths and contents *)



End Binary64_facts.

(** *** Examples *)


(** [spm_hrf(300.)]: the grid has one point, the unnormalized kernel is
    [[0.]], its sum is zero and the kernel returned is [[nan]]. *)
Lemma zero_sum_gives_non_finite_samples_witness :
  exists k : list float,
    k = [PrimFloat.nan]
    /\ forall pdf refuses,
         refuses 1%Z = None ->
         @spm_hrf float _ (float_SciLib sum_left pdf refuses)
           300%float 16%float 32%float 0%float = Ok k.
Proof.
  exists [PrimFloat.nan]. split; [reflexivity |]. intros pdf refuses Hroom.
  destruct (@zero_sum_gives_non_finite_samples sum_left pdf refuses
              300%float 16%float 32%float 0%float
              (flit 6) (flit 16) (flit 1) (flit 1) (flit 0.167)
              [PrimFloat.zero])
    as (k & Hk & Hmap & _).
  - vm_compute. rewrite Hroom. reflexivity.
  - vm_compute. reflexivity.
  - rewrite Hmap in Hk. exact Hk.
Defined.

(** The grid of [spm_hrf(2.0)]: [int(32. / 0.125)] is 256; the points
    are [i * (32 / 255)], the last one 32; the shift by [0 / 0.125]
    leaves them as they are. *)
Lemma time_grid_evenly_spaced_witness :
  exists grid : list float,
    (forall sum pdf refuses,
       refuses 256%Z = None ->
       @hrf_time_stamps float _ (float_SciLib sum pdf refuses)
         (PrimFloat.div 2 16) 32%float 0%float = Ok grid)
    /\ to_int (PrimFloat.div 32 (PrimFloat.div 2 16)) = Ok 256%Z
    /\ List.length grid = 256%nat
    /\ nth 0 grid PrimFloat.nan = 0%float
    /\ nth 1 grid PrimFloat.nan = PrimFloat.div 32 255
    /\ nth 2 grid PrimFloat.nan = PrimFloat.mul 2 (PrimFloat.div 32 255)
    /\ nth 255 grid PrimFloat.nan = 32%float.
Proof.
  exists (map (fun t => PrimFloat.sub t (PrimFloat.div 0 (PrimFloat.div 2 16)))
            (linspace_points 0%float 32%float 256)).
  assert (Hgrid : forall sum pdf refuses,
             refuses 256%Z = None ->
             @hrf_time_stamps float _ (float_SciLib sum pdf refuses)
               (PrimFloat.div 2 16) 32%float 0%float
             = Ok (map (fun t => PrimFloat.sub t
                                   (PrimFloat.div 0 (PrimFloat.div 2 16)))
                     (linspace_points 0%float 32%float 256))).
  { intros sum pdf refuses Hroom.
    exact (@hrf_time_stamps_of_count float float_PyFloat
             (float_SciLib sum pdf refuses)
             (PrimFloat.div 2 16) 32%float 0%float 256%Z
             ltac:(vm_compute; reflexivity) ltac:(vm_compute; reflexivity)
             ltac:(lia) Hroom). }
  split; [exact Hgrid |].
  destruct (@time_grid_evenly_spaced float float_PyFloat
              (float_SciLib sum_left (fun _ _ => 0%float) (fun _ => None))
              2%float 16%float 32%float 0%float _
              ltac:(vm_compute; reflexivity) (Hgrid _ _ _ eq_refl))
    as (_ & N & HN & _ & _ & Hlen & Hnth).
  assert (EN : N = 256%Z).
  { cbn [py_int float_PyFloat fdiv] in HN. vm_compute in HN.
    now injection HN. }
  subst N. split; [vm_compute; reflexivity |].
  split; [exact Hlen |].
  change (Z.to_nat 256) with 256%nat in Hnth.
  repeat match goal with |- _ /\ _ => split end;
    [ etransitivity; [exact (Hnth 0%nat ltac:(lia)) |]
    | etransitivity; [exact (Hnth 1%nat ltac:(lia)) |]
    | etransitivity; [exact (Hnth 2%nat ltac:(lia)) |]
    | etransitivity; [exact (Hnth 255%nat ltac:(lia)) |] ];
    vm_compute; reflexivity.
Defined.

(** C4 fails as stated: the product by [1. / 0.1] is not the quotient by
    [0.1].  For two samples 0.7 and 0. the code computes
    [10.0 * (0.7 - 0.)], which is 7.0, and the quotient [(0.7 - 0.) / 0.1]
    is the double just below 7. *)
Lemma product_by_reciprocal_is_not_the_quotient :
  exists hi lo : float,
    (diff <- np_sub [hi] [lo] ;;
     Ok (np_scale (PrimFloat.div (flit 1) (flit 0.1)) diff))
    = Ok [7%float]
    /\ forward_difference (flit 0.1) [hi] [lo] = [0x1.bffffffffffffp+2%float]
    /\ PrimFloat.ltb 0x1.bffffffffffffp+2 7 = true.
Proof.
  exists (flit 0.7), 0%float. repeat split; vm_compute; reflexivity.
Qed.



(** ** The arrays in memory *)

Section Store_facts.

Context {F : Type} {PF : PyFloat F} {SL : SciLib F}.

Abbreviation store := (@Store.store F).

Lemma nth_error_at (pre post : store) (a : list F) :
  nth_error (pre ++ a :: post) (List.length pre) = Some a.
Proof. now rewrite nth_error_app2, Nat.sub_diag by lia. Qed.

Lemma store_at_at (pre post : store) (a b : list F) :
  Store.store_at (List.length pre) b (pre ++ a :: post) = pre ++ b :: post.
Proof. induction pre as [| c pre IH]; cbn; [reflexivity | now rewrite IH]. Qed.

Lemma contents_at (s pre post : store) (a : list F) :
  s = pre ++ a :: post ->
  Store.contents (List.length pre) s = (Ok a, s).
Proof. intros ->. unfold Store.contents. now rewrite nth_error_at. Qed.

Lemma update_at (s pre post : store) (a : list F) (f : list F -> list F) :
  s = pre ++ a :: post ->
  Store.update_in_place (List.length pre) f s = (Ok tt, pre ++ f a :: post).
Proof.
  intros ->. unfold Store.update_in_place.
  now rewrite nth_error_at, store_at_at.
Qed.

Ltac same_store := rewrite <- ?app_assoc; reflexivity.

(** The store a run leaves when it raises: the one it started from and
    the arrays allocated so far. *)
Ltac raised :=
  first [ exists []; now rewrite app_nil_r
        | eexists; f_equal; same_store ].

(** A run of the stored [_gamma_difference_hrf] from any store. *)
Lemma run_gamma_difference_hrf
    (tr oversampling time_length onset delay undershoot dispersion
       u_dispersion ratio : F) (s : store) :
  Store.runs_as
    (Store._gamma_difference_hrf tr oversampling time_length onset delay
       undershoot dispersion u_dispersion ratio)
    (_gamma_difference_hrf tr oversampling time_length onset delay
       undershoot dispersion u_dispersion ratio) s.
Proof.
  unfold Store.runs_as, _gamma_difference_hrf, gamma_difference_unnormalized,
    hrf_time_stamps, np_linspace, Store._gamma_difference_hrf,
    Store.bind_prog, Store.lift, Store.new_array, Store.ret.
  destruct (py_div tr oversampling) as [dt | e]; cbn [bind]; [| raised].
  destruct (py_div time_length dt) as [num | e]; cbn [bind]; [| raised].
  destruct (sample_count num) as [n | e]; cbn [bind]; [| raised].
  destruct (py_div onset dt) as [shift | e]; cbn [bind]; [| raised].
  erewrite update_at with (pre := s) by reflexivity.
  destruct (py_div delay dispersion) as [a1 | e]; cbn [bind]; [| raised].
  destruct (py_div dt dispersion) as [loc1 | e]; cbn [bind]; [| raised].
  erewrite contents_at with (pre := s) by reflexivity.
  destruct (py_div undershoot u_dispersion) as [a2 | e]; cbn [bind];
    [| raised].
  destruct (py_div dt u_dispersion) as [loc2 | e]; cbn [bind]; [| raised].
  erewrite contents_at with (pre := s) by same_store.
  erewrite contents_at with (pre := (s ++ [_]) ++ [_]) by same_store.
  erewrite contents_at with (pre := s ++ [_]) by same_store.
  erewrite contents_at with (pre := ((s ++ [_]) ++ [_]) ++ [_]) by same_store.
  destruct (np_sub _ _) as [raw | e]; cbn [bind]; [| raised].
  erewrite contents_at with (pre := (((s ++ [_]) ++ [_]) ++ [_]) ++ [_])
    by same_store.
  erewrite update_at with (pre := (((s ++ [_]) ++ [_]) ++ [_]) ++ [_])
    by same_store.
  eexists [_; _; _; _]. unfold normalize.
  rewrite !length_app. cbn [List.length]. f_equal.
  - f_equal. lia.
  - same_store.
Qed.

Lemma run_difference (inv_step : F) (p_hi p_lo : Store.prog nat)
    (f_hi f_lo : result (list F)) (s : store) :
  (forall s', Store.runs_as p_hi f_hi s') ->
  (forall s', Store.runs_as p_lo f_lo s') ->
  Store.runs_as
    (Store.bind_prog p_hi (fun hi =>
       Store.bind_prog p_lo (fun lo =>
         Store.scaled_difference inv_step hi lo)))
    (hi <- f_hi ;; lo <- f_lo ;; diff <- np_sub hi lo ;;
     Ok (np_scale inv_step diff)) s.
Proof.
  intros Hhi Hlo. unfold Store.runs_as in *.
  unfold Store.scaled_difference, Store.bind_prog, Store.lift,
    Store.new_array.
  destruct (Hhi s) as [t1 H1].
  destruct f_hi as [k1 | e]; cbn [bind]; rewrite H1; [| now exists t1].
  destruct (Hlo ((s ++ t1) ++ [k1])) as [t2 H2].
  destruct f_lo as [k2 | e]; cbn [bind]; rewrite H2; [| raised].
  erewrite contents_at with (pre := s ++ t1) by same_store.
  erewrite contents_at with (pre := ((s ++ t1) ++ [k1]) ++ t2)
    by same_store.
  destruct (np_sub k1 k2) as [d | e]; cbn [bind]; [| raised].
  erewrite contents_at with (pre := (((s ++ t1) ++ [k1]) ++ t2) ++ [k2])
    by same_store.
  exists (t1 ++ [k1] ++ t2 ++ [k2] ++ [d]).
  f_equal.
  - f_equal. rewrite !length_app. cbn [List.length]. lia.
  - same_store.
Qed.

Lemma run_derivative (step : F) (p_hi p_lo : Store.prog nat)
    (f_hi f_lo : result (list F)) (s : store) :
  (forall s', Store.runs_as p_hi f_hi s') ->
  (forall s', Store.runs_as p_lo f_lo s') ->
  Store.runs_as
    (Store.bind_prog (Store.lift (py_div (flit 1) step)) (fun inv_step =>
       Store.bind_prog p_hi (fun hi =>
         Store.bind_prog p_lo (fun lo =>
           Store.scaled_difference inv_step hi lo))))
    (inv_step <- py_div (flit 1) step ;;
     hi <- f_hi ;; lo <- f_lo ;; diff <- np_sub hi lo ;;
     Ok (np_scale inv_step diff)) s.
Proof.
  intros Hhi Hlo.
  pose proof (fun inv_step =>
                @run_difference inv_step p_hi p_lo f_hi f_lo s Hhi Hlo) as H.
  unfold Store.runs_as, Store.bind_prog, Store.lift in *.
  destruct (py_div (flit 1) step) as [inv_step | e]; cbn [bind].
  - apply H.
  - raised.
Qed.

Lemma runs_as_pure_call (p : Store.prog nat) (f : result (list F)) :
  (forall s, Store.runs_as p f s) -> Store.pure_call p f.
Proof.
  intros H s. destruct (H s) as [t Ht].
  unfold Store.outcome, Store.preserves, Store.preserved.
  destruct f as [k | e]; rewrite Ht; cbn [snd].
  - rewrite nth_error_at. split; [reflexivity |].
    exists (t ++ [k]). same_store.
  - split; [reflexivity | now exists t].
Qed.

(** What purity gives a caller: the outcome is the same from any two
    stores, so two calls with the same arguments return the same
    sequence. *)
Lemma pure_call_deterministic (p : Store.prog nat) (f : result (list F)) :
  Store.pure_call p f ->
  forall s1 s2, Store.outcome p s1 = Store.outcome p s2.
Proof.
  intros H s1 s2. destruct (H s1) as [-> _]. destruct (H s2) as [-> _].
  reflexivity.
Qed.

(** C8: every function of the HRF family is a pure call.  Run from any
    store of arrays, it returns a new array whose contents are the value
    of the function at its numeric arguments, or raises what the function
    raises, and either way it leaves every array of the store as it was:
    the in-place operations [time_stamps -= ...] and [hrf /= ...] touch
    only arrays the call allocated itself.  Two calls with the same
    arguments therefore return the same sequence, sample for sample (on
    binary64 floats, the same doubles). *)
Theorem hrf_family_is_pure
    (tr oversampling time_length onset delay undershoot dispersion
       u_dispersion ratio : F) :
  Store.pure_call
    (Store._gamma_difference_hrf tr oversampling time_length onset delay
       undershoot dispersion u_dispersion ratio)
    (_gamma_difference_hrf tr oversampling time_length onset delay
       undershoot dispersion u_dispersion ratio)
  /\ Store.pure_call (Store.spm_hrf tr oversampling time_length onset)
       (spm_hrf tr oversampling time_length onset)
  /\ Store.pure_call (Store.glover_hrf tr oversampling time_length onset)
       (glover_hrf tr oversampling time_length onset)
  /\ Store.pure_call
       (Store.spm_time_derivative tr oversampling time_length onset)
       (spm_time_derivative tr oversampling time_length onset)
  /\ Store.pure_call
       (Store.glover_time_derivative tr oversampling time_length onset)
       (glover_time_derivative tr oversampling time_length onset)
  /\ Store.pure_call
       (Store.spm_dispersion_derivative tr oversampling time_length onset)
       (spm_dispersion_derivative tr oversampling time_length onset).
Proof.
  repeat match goal with |- _ /\ _ => split end;
    apply runs_as_pure_call; intros s;
    first [ apply run_gamma_difference_hrf
          | apply run_derivative; intros s'; apply run_gamma_difference_hrf ].
Qed.

End Store_facts.

(** ** Strings and dictionaries: facts *)

Section Text_facts.

Local Open Scope string_scope.

Lemma split_nonempty (sep : ascii) (s : string) : Text.split sep s <> [].
Proof.
  destruct s as [| c rest]; cbn; [discriminate |].
  destruct (Ascii.eqb c sep); [discriminate |].
  destruct (Text.split sep rest); discriminate.
Qed.

Lemma split_without (sep : ascii) (s : string) :
  Text.without sep s = true -> Text.split sep s = [s].
Proof.
  induction s as [| c rest IH]; cbn; [reflexivity |].
  intros H. apply andb_true_iff in H as [Hc Hrest].
  apply negb_true_iff in Hc. rewrite Hc, IH by assumption. reflexivity.
Qed.

Lemma split_snoc (sep : ascii) (m c : string) :
  Text.without sep c = true ->
  Text.split sep (m ++ String sep c) = (Text.split sep m ++ [c])%list.
Proof.
  intros Hc. induction m as [| a rest IH]; cbn.
  - rewrite Ascii.eqb_refl, split_without by assumption. reflexivity.
  - destruct (Ascii.eqb a sep); rewrite IH; [reflexivity |].
    pose proof (split_nonempty sep rest) as Hne.
    destruct (Text.split sep rest); [now contradiction Hne | reflexivity].
Qed.

(** Joining the pieces of a split gives the string back. *)
Lemma join_split (sep : ascii) (s : string) :
  Text.join (String sep EmptyString) (Text.split sep s) = s.
Proof.
  induction s as [| c rest IH]; cbn; [reflexivity |].
  pose proof (split_nonempty sep rest) as Hne.
  destruct (Ascii.eqb_spec c sep) as [-> | Hc].
  - destruct (Text.split sep rest) as [| piece pieces];
      [now contradiction Hne |].
    cbn [Text.join]. cbn. now rewrite <- IH.
  - destruct (Text.split sep rest) as [| piece pieces];
      [now contradiction Hne |].
    destruct pieces as [| piece' pieces]; cbn in *; now rewrite <- IH.
Qed.

End Text_facts.

Section Dict_facts.

Variable V : Type.

Lemma get_set_same (k : string) (v : V) (d : Dict.dict V) :
  Dict.get k (Dict.set k v d) = Some v.
Proof.
  induction d as [| [k' v'] d IH]; cbn.
  - now rewrite String.eqb_refl.
  - destruct (String.eqb k k') eqn:E; cbn; rewrite ?E, ?String.eqb_refl;
      [reflexivity | exact IH].
Qed.

Lemma get_set_other (k k' : string) (v : V) (d : Dict.dict V) :
  k' <> k -> Dict.get k' (Dict.set k v d) = Dict.get k' d.
Proof.
  intros Hk. induction d as [| [k0 v0] d IH]; cbn.
  - apply String.eqb_neq in Hk. now rewrite Hk.
  - destruct (String.eqb_spec k k0) as [<- | Hk0]; cbn.
    + apply String.eqb_neq in Hk. now rewrite Hk.
    + destruct (String.eqb k' k0); [reflexivity | exact IH].
Qed.

Lemma set_set_same (k : string) (v w : V) (d : Dict.dict V) :
  Dict.set k w (Dict.set k v d) = Dict.set k w d.
Proof.
  induction d as [| [k0 v0] d IH]; cbn.
  - now rewrite String.eqb_refl.
  - destruct (String.eqb k k0) eqn:E; cbn; rewrite ?E, ?String.eqb_refl;
      [reflexivity | now rewrite IH].
Qed.

Lemma keys_set_present (k : string) (v : V) (d : Dict.dict V) :
  In k (Dict.keys d) -> Dict.keys (Dict.set k v d) = Dict.keys d.
Proof.
  induction d as [| [k0 v0] d IH]; cbn; [contradiction |].
  intros Hin. destruct (String.eqb_spec k k0) as [-> | Hk]; cbn.
  - reflexivity.
  - f_equal. apply IH. destruct Hin as [-> | Hin]; [now contradiction Hk |].
    exact Hin.
Qed.

Lemma in_keys_set (k : string) (v : V) (d : Dict.dict V) :
  In k (Dict.keys (Dict.set k v d)).
Proof.
  induction d as [| [k0 v0] d IH]; cbn; [now left |].
  destruct (String.eqb k k0); cbn; [now left | now right].
Qed.

Lemma get_None_iff (k : string) (d : Dict.dict V) :
  Dict.get k d = None <-> ~ In k (Dict.keys d).
Proof.
  induction d as [| [k0 v0] d IH]; cbn; [tauto |].
  destruct (String.eqb_spec k k0) as [-> | Hk].
  - split; [discriminate | intros H; exfalso; apply H; now left].
  - rewrite IH. split; intros H; [intros [E | Hin] | ]; try tauto.
    now contradiction Hk.
Qed.

Lemma get_Some_in_keys (k : string) (v : V) (d : Dict.dict V) :
  Dict.get k d = Some v -> In k (Dict.keys d).
Proof.
  induction d as [| [k0 v0] d IH]; cbn; [discriminate |].
  destruct (String.eqb_spec k k0) as [-> | Hk]; [now left |].
  intros H. right. now apply IH.
Qed.

End Dict_facts.

(** ** The estimator registries: facts *)

Section Estimators_facts.

Local Open Scope string_scope.

Variable module_t : Type.
Variable class_t : Type.
Variable estimator : Type.
Variable pyval : Type.
Variable callee_exn : Type.
Variable import_module : string -> module_t + callee_exn.
Variable getattr : module_t -> string -> class_t + callee_exn.
Variable import_from : string -> string -> class_t + callee_exn.
Variable call :
  class_t -> Estimators.arguments pyval -> estimator + callee_exn.
Variable Pipeline : list (string * estimator) -> estimator + callee_exn.

Abbreviation load_class := (Estimators.load_class import_module getattr).
Abbreviation set_algorithm :=
  (Estimators.set_algorithm import_module getattr import_from call Pipeline).
Abbreviation set_decomposition_algorithm :=
  (Estimators.set_decomposition_algorithm import_module getattr call).

(** [load_class] cuts its argument at the last dot: the module imported
    is what stands before it, dots included, and the attribute fetched is
    what stands after it.  A string without a dot asks for the attribute
    of the module of empty name. *)
Theorem load_class_splits_at_last_dot (module_path class_str : string) :
  Text.without "." class_str = true ->
  load_class (module_path ++ "." ++ class_str)
  = Estimators.bind_completion
      (Estimators.of_callee (import_module module_path))
      (fun module => Estimators.of_callee (getattr module class_str))
  /\ load_class class_str
     = Estimators.bind_completion
         (Estimators.of_callee (import_module ""))
         (fun module => Estimators.of_callee (getattr module class_str)).
Proof.
  intros Hc. unfold Estimators.load_class. split.
  - change (module_path ++ "." ++ class_str)
      with (module_path ++ String "." class_str).
    rewrite split_snoc by assumption.
    rewrite removelast_last, last_last.
    change "." with (String "."%char EmptyString) at 1.
    now rewrite join_split.
  - now rewrite split_without.
Qed.

Lemma of_callee_no_own_error (A : Type) (r : A + callee_exn) :
  ~ Estimators.own_error (Estimators.of_callee r).
Proof. intros [msg H]. destruct r; discriminate H. Qed.

Lemma bind_no_own_error (A B : Type)
    (m : Estimators.completion callee_exn A)
    (k : A -> Estimators.completion callee_exn B) :
  ~ Estimators.own_error m -> (forall a, ~ Estimators.own_error (k a)) ->
  ~ Estimators.own_error (Estimators.bind_completion m k).
Proof.
  intros Hm Hk [msg H]. destruct m as [a | msg' | e]; cbn in H.
  - apply (Hk a). now exists msg.
  - apply Hm. now exists msg'.
  - discriminate H.
Qed.

Lemma load_class_no_own_error (s : string) :
  ~ Estimators.own_error (load_class s).
Proof.
  unfold Estimators.load_class. apply bind_no_own_error;
    [| intros m]; apply of_callee_no_own_error.
Qed.

Lemma returned_no_own_error (A : Type) (a : A) :
  ~ Estimators.own_error (Estimators.Returned callee_exn a).
Proof. intros [msg H]. discriminate H. Qed.

Ltac no_own_error :=
  repeat first
    [ apply returned_no_own_error
    | apply of_callee_no_own_error
    | apply load_class_no_own_error
    | apply bind_no_own_error; [| intros ?] ].

(** [set_algorithm] raises its [ValueError] exactly for the names it does
    not accept.  It accepts every name its error message offers, and two
    more that the message leaves out: [ridgeClassifierCV] and [pcr]. *)
Theorem set_algorithm_value_error_iff
    (algorithm : string) (args : Estimators.arguments pyval) :
  (Estimators.own_error (set_algorithm algorithm args)
   <-> ~ In algorithm Estimators.accepted_algorithms)
  /\ (~ In algorithm Estimators.accepted_algorithms ->
      set_algorithm algorithm args
      = Estimators.ValueErrorRaised callee_exn _
          Estimators.invalid_algorithm)
  /\ incl Estimators.documented_algorithms Estimators.accepted_algorithms
  /\ (In algorithm Estimators.accepted_algorithms ->
      ~ In algorithm Estimators.documented_algorithms ->
      algorithm = "ridgeClassifierCV" \/ algorithm = "pcr").
Proof.
  assert (Hrej : ~ In algorithm Estimators.accepted_algorithms ->
                 set_algorithm algorithm args
                 = Estimators.ValueErrorRaised callee_exn _
                     Estimators.invalid_algorithm).
  { intros Hn. unfold Estimators.accepted_algorithms in Hn.
    rewrite !in_app_iff in Hn. unfold Estimators.set_algorithm.
    replace (Dict.get algorithm Estimators.algs_classify) with (@None string)
      by (symmetry; apply get_None_iff; tauto).
    replace (Dict.get algorithm Estimators.algs_predict) with (@None string)
      by (symmetry; apply get_None_iff; tauto).
    destruct (String.eqb_spec algorithm "lassopcr") as [-> | _];
      [exfalso; apply Hn; right; right; now left |].
    destruct (String.eqb_spec algorithm "pcr") as [-> | _];
      [exfalso; apply Hn; right; right; right; now left |].
    reflexivity. }
  split; [| split; [exact Hrej | split]].
  - split.
    + intros Hown Hin. revert Hown. unfold Estimators.set_algorithm.
      destruct (Dict.get algorithm Estimators.algs_classify) eqn:Ec;
        [no_own_error |].
      destruct (Dict.get algorithm Estimators.algs_predict) eqn:Ep;
        [no_own_error |].
      destruct (String.eqb_spec algorithm "lassopcr"); [no_own_error |].
      destruct (String.eqb_spec algorithm "pcr"); [no_own_error |].
      exfalso. apply get_None_iff in Ec, Ep.
      unfold Estimators.accepted_algorithms in Hin.
      rewrite !in_app_iff in Hin. cbn [In] in Hin.
      destruct Hin as [H | [H | [H | [H | []]]]]; auto.
    + intros Hn. rewrite (Hrej Hn). now eexists.
  - intros name Hin. cbn in Hin. cbn.
    repeat (destruct Hin as [<- | Hin]; [tauto |]). contradiction.
  - intros Hin Hdoc. cbn in Hin, Hdoc.
    repeat (destruct Hin as [<- | Hin]; [tauto |]). contradiction.
Qed.

Lemma existsb_keys (A : Type) (k : string) (d : Dict.dict A) :
  existsb (String.eqb k) (Dict.keys d)
  = match Dict.get k d with Some _ => true | None => false end.
Proof.
  induction d as [| [k0 v0] d IH]; cbn; [reflexivity |].
  destruct (String.eqb k k0); [reflexivity | exact IH].
Qed.

Lemma bind_Returned_inv (A B : Type)
    (m : Estimators.completion callee_exn A)
    (k : A -> Estimators.completion callee_exn B) (b : B) :
  Estimators.bind_completion m k = Estimators.Returned callee_exn b ->
  exists a, m = Estimators.Returned callee_exn a
            /\ k a = Estimators.Returned callee_exn b.
Proof.
  destruct m as [a | msg | e]; cbn; intros H; try discriminate H.
  now exists a.
Qed.

(** The settings [set_algorithm] returns: the name that was asked for, a
    predictor, and the prediction type, which is ['classification'] for
    the five names of [algs_classify] and ['prediction'] for every other
    accepted name.  The keys are these three, in this order, with the two
    steps of the pipeline before the predictor for [lassopcr] and
    [pcr]. *)
Theorem set_algorithm_settings
    (algorithm : string) (args : Estimators.arguments pyval)
    (settings : Dict.dict (Estimators.setting estimator)) :
  set_algorithm algorithm args = Estimators.Returned callee_exn settings ->
  Dict.get "algorithm" settings = Some (Estimators.Name _ algorithm)
  /\ Dict.get "prediction_type" settings
     = Some (Estimators.Name _
               (if existsb (String.eqb algorithm)
                     (Dict.keys Estimators.algs_classify)
                then "classification" else "prediction"))
  /\ (exists predictor,
        Dict.get "predictor" settings
        = Some (Estimators.Estimator predictor))
  /\ Dict.keys settings
     = (["algorithm"; "prediction_type"]
        ++ (if String.eqb algorithm "lassopcr" then ["_lasso"; "_pca"]
            else if String.eqb algorithm "pcr" then ["_regress"; "_pca"]
            else [])
        ++ ["predictor"])%list.
Proof.
  unfold Estimators.set_algorithm. rewrite existsb_keys.
  destruct (Dict.get algorithm Estimators.algs_classify) eqn:Ec.
  { intros H. apply bind_Returned_inv in H as (alg & _ & H).
    apply bind_Returned_inv in H as (p & _ & H).
    injection H as <-. apply get_Some_in_keys in Ec.
    cbn in Ec. repeat (destruct Ec as [<- | Ec]; [cbn; eauto |]).
    contradiction. }
  destruct (Dict.get algorithm Estimators.algs_predict) eqn:Ep.
  { intros H. apply bind_Returned_inv in H as (alg & _ & H).
    apply bind_Returned_inv in H as (p & _ & H).
    injection H as <-. apply get_Some_in_keys in Ep.
    cbn in Ep. repeat (destruct Ep as [<- | Ep]; [cbn; eauto |]).
    contradiction. }
  destruct (String.eqb_spec algorithm "lassopcr") as [-> | Hl].
  { intros H. do 5 (apply bind_Returned_inv in H as (? & _ & H)).
    injection H as <-. cbn. eauto. }
  destruct (String.eqb_spec algorithm "pcr") as [-> | Hp].
  { intros H. do 5 (apply bind_Returned_inv in H as (? & _ & H)).
    injection H as <-. cbn. eauto. }
  discriminate.
Qed.

(** For [lassopcr] and [pcr] the caller's arguments are dropped: both
    estimators are built without arguments.  The steps of the pipeline
    returned are the two estimators that the settings hold under [_pca]
    and under [_lasso] or [_regress], the PCA first. *)
Theorem set_algorithm_pipelines
    (algorithm : string) (args : Estimators.arguments pyval) :
  algorithm = "lassopcr" \/ algorithm = "pcr" ->
  set_algorithm algorithm args
  = set_algorithm algorithm (Estimators.no_arguments pyval)
  /\ (forall settings,
        set_algorithm algorithm args
        = Estimators.Returned callee_exn settings ->
        let step := if String.eqb algorithm "lassopcr"
                    then "lasso" else "regress" in
        exists pca second pipeline,
          Dict.get "_pca" settings = Some (Estimators.Estimator pca)
          /\ Dict.get ("_" ++ step) settings
             = Some (Estimators.Estimator second)
          /\ Pipeline [("pca", pca); (step, second)] = inl pipeline
          /\ Dict.get "predictor" settings
             = Some (Estimators.Estimator pipeline)).
Proof.
  intros [-> | ->]; (split; [reflexivity |]); intros settings H;
    unfold Estimators.set_algorithm in H; cbn in H;
    repeat match type of H with
           | context [Estimators.of_callee ?r] =>
               destruct r eqn:?; cbn in H; [| discriminate H]
           end;
    injection H as <-; cbn; eauto 10.
Qed.

(** [set_decomposition_algorithm] raises its [ValueError] exactly for the
    names other than [pca], [ica], [nnmf] and [fa].  When it returns, the
    estimator is what the class of that name in [sklearn.decomposition]
    gave when called with [n_components] put before the caller's
    positional arguments. *)
Theorem set_decomposition_algorithm_value_error_iff
    (algorithm : string) (n_components : pyval)
    (args : Estimators.arguments pyval) :
  (Estimators.own_error
     (set_decomposition_algorithm algorithm n_components args)
   <-> ~ In algorithm ["pca"; "ica"; "nnmf"; "fa"])
  /\ (forall e,
        set_decomposition_algorithm algorithm n_components args
        = Estimators.Returned callee_exn e ->
        exists class_str module alg,
          Dict.get algorithm Estimators.algs
          = Some ("sklearn.decomposition." ++ class_str)
          /\ import_module "sklearn.decomposition" = inl module
          /\ getattr module class_str = inl alg
          /\ call alg
               {| Estimators.positional :=
                    n_components :: Estimators.positional args;
                  Estimators.keywords := Estimators.keywords args |}
             = inl e).
Proof.
  unfold Estimators.set_decomposition_algorithm. split; [split |].
  - intros Hown Hin.
    destruct (Dict.get algorithm Estimators.algs) eqn:E.
    + revert Hown. no_own_error.
    + apply get_None_iff in E. now apply E.
  - intros Hn.
    replace (Dict.get algorithm Estimators.algs) with (@None string)
      by (symmetry; now apply get_None_iff).
    now eexists.
  - intros e H.
    destruct (Dict.get algorithm Estimators.algs) as [s |] eqn:E;
      [| discriminate H].
    apply get_Some_in_keys in E as Hin. cbn in Hin.
    repeat (destruct Hin as [<- | Hin];
            [ cbn in E; injection E as <-;
              unfold Estimators.load_class in H; cbn in H;
              destruct (import_module "sklearn.decomposition")
                as [module | ?] eqn:Em; cbn in H; [| discriminate H];
              match type of H with
              | context [getattr module ?c] =>
                  destruct (getattr module c) as [alg | ?] eqn:Ea;
                  cbn in H; [| discriminate H];
                  exists c, module, alg
              end;
              destruct (call alg _) as [e' | ?]; cbn in H;
              [injection H as -> | discriminate H];
              repeat split; assumption || reflexivity
            |]).
    contradiction.
Qed.

End Estimators_facts.

Lemma load_class_splits_at_last_dot_witness :
  Estimators.load_class Toy.import_module Toy.getattr "sklearn.svm.SVC"
  = Estimators.Returned Empty_set ("sklearn.svm", "SVC")%string.
Proof.
  etransitivity;
    [ exact (proj1 (load_class_splits_at_last_dot Toy.import_module
                      Toy.getattr "sklearn.svm" "SVC" eq_refl))
    | reflexivity ].
Defined.

Lemma set_algorithm_settings_witness :
  exists settings,
    Estimators.set_algorithm Toy.import_module Toy.getattr
      Toy.import_from Toy.call Toy.Pipeline "ridge"
      (Estimators.no_arguments nat)
    = Estimators.Returned Empty_set settings
    /\ Dict.get "prediction_type" settings
       = Some (Estimators.Name _ "prediction").
Proof.
  eexists. split; [vm_compute; reflexivity |].
  apply (set_algorithm_settings Toy.import_module Toy.getattr
           Toy.import_from Toy.call Toy.Pipeline "ridge"
           (Estimators.no_arguments nat)).
  vm_compute. reflexivity.
Defined.

(** [set_algorithm('pcr', 3)] is [set_algorithm('pcr')]. *)
Lemma set_algorithm_pipelines_witness :
  Estimators.set_algorithm Toy.import_module Toy.getattr Toy.import_from
    Toy.call Toy.Pipeline "pcr"
    {| Estimators.positional := [3%nat]; Estimators.keywords := [] |}
  = Estimators.set_algorithm Toy.import_module Toy.getattr Toy.import_from
      Toy.call Toy.Pipeline "pcr" (Estimators.no_arguments nat).
Proof.
  apply (set_algorithm_pipelines Toy.import_module Toy.getattr
           Toy.import_from Toy.call Toy.Pipeline).
  right. reflexivity.
Defined.

(** ** Optional imports: facts *)

Section Imports_facts.

Variable module_t : Type.
Variable fromlist_t : Type.
Variable callee_exn : Type.
Variable import_ :
  string -> option fromlist_t -> Imports.imported module_t callee_exn.

Abbreviation attempt_to_import := (Imports.attempt_to_import import_).

(** [attempt_to_import] never lets an [ImportError] through: it returns
    [None] for it.  Whenever it returns, [module_names] holds under the
    given name (the dependency's own name when none is given) the
    dependency and the value returned, and every other entry is as it
    was.  An exception other than [ImportError] passes through and leaves
    [module_names] untouched. *)
Theorem attempt_to_import_registers
    (dependency : string) (name : option string)
    (fromlist : option fromlist_t)
    (module_names : Imports.registry module_t) :
  match attempt_to_import dependency name fromlist module_names with
  | (inl value, module_names') =>
      (value = None <-> import_ dependency fromlist = Imports.ImportError _ _)
      /\ Dict.get (Imports.entry_name dependency name) module_names'
         = Some {| Imports.package := dependency; Imports.value := value |}
      /\ forall other, other <> Imports.entry_name dependency name ->
           Dict.get other module_names' = Dict.get other module_names
  | (inr e, module_names') =>
      import_ dependency fromlist = Imports.OtherException _ e
      /\ module_names' = module_names
  end.
Proof.
  unfold Imports.attempt_to_import.
    destruct (import_ dependency fromlist) as [m | | e].
  - split; [split; discriminate |].
    split; [apply get_set_same | intros other H; now apply get_set_other].
  - split; [split; reflexivity |].
    split; [apply get_set_same | intros other H; now apply get_set_other].
  - split; reflexivity.
Qed.

(** Two attempts under one name: when both return, [module_names] is
    what the second attempt alone would have left, the entry of the first
    is overwritten where it stood, and no key is added. *)
Theorem attempt_to_import_last_wins
    (first second name : string) (fromlist1 fromlist2 : option fromlist_t)
    (module_names : Imports.registry module_t)
    (value1 value2 : option module_t) :
  let after_first :=
    snd (attempt_to_import first (Some name) fromlist1 module_names) in
  let after_second :=
    snd (attempt_to_import second (Some name) fromlist2 after_first) in
  fst (attempt_to_import first (Some name) fromlist1 module_names)
  = inl value1 ->
  fst (attempt_to_import second (Some name) fromlist2 after_first)
  = inl value2 ->
  after_second
  = snd (attempt_to_import second (Some name) fromlist2 module_names)
  /\ Dict.keys after_second = Dict.keys after_first
  /\ Dict.get name after_second
     = Some {| Imports.package := second; Imports.value := value2 |}.
Proof.
  cbv zeta. unfold Imports.attempt_to_import.
  destruct (import_ first fromlist1) as [m1 | | e1]; cbn [fst snd];
    intros H1; try discriminate H1;
    destruct (import_ second fromlist2) as [m2 | | e2]; cbn [fst snd];
    intros H2; try discriminate H2; injection H2 as <-;
    (split; [apply set_set_same |]);
    (split; [apply keys_set_present, in_keys_set | apply get_set_same]).
Qed.

End Imports_facts.

Lemma attempt_to_import_last_wins_witness :
  snd (Imports.attempt_to_import Toy.import_ "numpy"%string
         (Some "np"%string) None
         (snd (Imports.attempt_to_import Toy.import_ "nump"%string
                 (Some "np"%string) None [])))
  = [("np"%string,
      {| Imports.package := "numpy"%string;
         Imports.value := Some "numpy"%string |})].
Proof.
  etransitivity;
    [ exact (proj1 (@attempt_to_import_last_wins string unit Empty_set
                      Toy.import_ "nump"%string "numpy"%string
                      "np"%string None None []
                      None (Some "numpy"%string) eq_refl eq_refl))
    | reflexivity ].
Defined.
